(** * xk6-mongodb: the Mongo extension for k6 (mongo.go)

    A shallow embedding of the module facade ([Mongo]) and of the client
    wrapper ([Client]) of [mongo.go], together with the parts of Go's
    standard library the codecs are built on ([encoding/hex], [regexp],
    [strings], [fmt], [crypto/rand], [time]) and a small model of the
    MongoDB driver calls the client issues. *)

From Stdlib Require Import Ascii String Strings.Byte.
From Stdlib Require Import List NArith ZArith Lia Bool.
Import ListNotations.

Set Warnings "-register-all".

Local Open Scope list_scope.
Local Open Scope char_scope.

(** ** Go values *)

(** A Go [string] is a sequence of bytes; a character is one [ascii]. *)
Definition gostring : Type := list ascii.

Definition text (s : string) : gostring := list_ascii_of_string s.

Definition code (c : ascii) : N := N_of_ascii c.

(** [s[lo:hi]] on indexes known to be in range. *)
Definition substr (s : gostring) (lo hi : nat) : gostring :=
  firstn (hi - lo) (skipn lo s).

(** [s[lo:hi]]: Go panics unless [lo <= hi <= len(s)]. *)
Definition slice (s : gostring) (lo hi : nat) : option gostring :=
  if (lo <=? hi)%nat && (hi <=? length s)%nat then Some (substr s lo hi)
  else None.

(** [primitive.Binary]. *)
Record Binary : Type := mkBinary { Subtype : byte; Data : list byte }.

(** The [error] values that can flow out of the module.  Every
    [fmt.Errorf] of [mongo.go] is one constructor, named after its
    message, carrying the formatted arguments. *)
Inductive error : Type :=
| InvalidByteError (c : ascii)            (* encoding/hex *)
| ErrLength                               (* encoding/hex *)
| EntropyError                            (* crypto/rand *)
| Errorf_invalid_UUID_format (uuid : gostring)
| Errorf_error_decoding_UUID_string (err : error)
| Errorf_unsupported_binary_subtype (subtype : byte)
| Errorf_invalid_UUID_binary_length (got : nat)
| ParseError (layoutElem valueElem message : gostring) (* time *)
| ErrNoDocuments                          (* mongo *)
| ErrNilDocument                          (* mongo *)
| TransitionError                         (* bson/bsonrw *)
| errors_New (msg : string)               (* errors *)
| DriverError (msg : string).             (* mongo *)

(** The outcome of a Go function returning [(T, error)]: a value with a
    nil error, a non-nil error, or a run-time panic. *)
Inductive result (A : Type) : Type :=
| Ok (v : A)
| Err (e : error)
| Panic.
Arguments Ok {A} v.
Arguments Err {A} e.
Arguments Panic {A}.

(** ** encoding/hex *)

Module hex.

Definition hextable : gostring := text "0123456789abcdef".

Definition shr4 (v : byte) : nat := N.to_nat (N.shiftr (Byte.to_N v) 4).
Definition and0f (v : byte) : nat := N.to_nat (N.land (Byte.to_N v) 15).

(** [Encode]: [dst[j] = hextable[v>>4]; dst[j+1] = hextable[v&0x0f]]. *)
Fixpoint EncodeToString (src : list byte) : gostring :=
  match src with
  | [] => []
  | v :: src' =>
      nth (shr4 v) hextable "0" :: nth (and0f v) hextable "0"
        :: EncodeToString src'
  end.

(** [reverseHexTable]: the value of a hex digit, [0xff] for any other
    byte. *)
Definition reverseHexTable (c : ascii) : N :=
  let n := code c in
  if (code "0" <=? n)%N && (n <=? code "9")%N then (n - code "0")%N
  else if (code "a" <=? n)%N && (n <=? code "f")%N then (n - code "a" + 10)%N
  else if (code "A" <=? n)%N && (n <=? code "F")%N then (n - code "A" + 10)%N
  else 255%N.

(** [(a << 4) | b] at type [byte]. *)
Definition shl4_or (a b : N) : byte :=
  match Byte.of_N (N.lor (N.shiftl a 4) b mod 256) with
  | Some v => v
  | None => x00
  end.

(** [Decode]: the bytes decoded before the first problem, and the
    error, if any. *)
Fixpoint Decode (src : gostring) : list byte * option error :=
  match src with
  | [] => ([], None)
  | [p] =>
      if (15 <? reverseHexTable p)%N then ([], Some (InvalidByteError p))
      else ([], Some ErrLength)
  | p :: q :: src' =>
      let a := reverseHexTable p in
      let b := reverseHexTable q in
      if (15 <? a)%N then ([], Some (InvalidByteError p))
      else if (15 <? b)%N then ([], Some (InvalidByteError q))
      else let (dst, err) := Decode src' in (shl4_or a b :: dst, err)
  end.

Definition DecodeString (s : gostring) : list byte * option error := Decode s.

End hex.

(** ** strings, fmt *)

Module strings.

(** [strings.Join(elems, sep)]. *)
Fixpoint Join (elems : list gostring) (sep : gostring) : gostring :=
  match elems with
  | [] => []
  | [e] => e
  | e :: elems' => e ++ sep ++ Join elems' sep
  end.

(** [strings.HasPrefix(s, prefix)]. *)
Fixpoint HasPrefix (s prefix : gostring) {struct prefix} : bool :=
  match prefix with
  | [] => true
  | p :: prefix' =>
      match s with
      | c :: s' => Ascii.eqb c p && HasPrefix s' prefix'
      | [] => false
      end
  end.

End strings.

Module fmt.

(** [fmt.Sprintf(format, args...)] for formats whose only verb is [%s]. *)
Fixpoint Sprintf (format : gostring) (args : list gostring) : gostring :=
  match format with
  | "%" :: "s" :: format' =>
      match args with
      | a :: args' => a ++ Sprintf format' args'
      | [] => text "%!s(MISSING)" ++ Sprintf format' []
      end
  | c :: format' => c :: Sprintf format' args
  | [] => []
  end.

End fmt.

(** ** regexp

    The fragment of Go's regular expressions the module uses, matched
    by backtracking in priority order (leftmost-first, greedy [?]), the
    semantics of package [regexp]. *)

Module regexp.

Inductive regex : Type :=
| BeginText                                 (* ^ *)
| EndText                                   (* $ *)
| Literal (c : ascii)
| CharClass (ranges : list (ascii * ascii)) (* [a-bc-d] *)
| Quest (r : regex)                         (* r? *)
| Repeat (r : regex) (n : nat)              (* r{n} *)
| Concat (r1 r2 : regex)
| Capture (i : nat) (r : regex).            (* (r), the i-th group *)

(** A position in the input, with the groups captured so far as index
    pairs into the input. *)
Record mstate : Type := mkState {
  pos : nat;
  rest : gostring;
  caps : list (option (nat * nat))
}.

Definition in_class (ranges : list (ascii * ascii)) (c : ascii) : bool :=
  existsb (fun r => (code (fst r) <=? code c)%N && (code c <=? code (snd r))%N)
          ranges.

Definition advance (st : mstate) (rest' : gostring) : mstate :=
  mkState (S (pos st)) rest' (caps st).

Fixpoint set_nth {A : Type} (i : nat) (x : A) (l : list A) : list A :=
  match i, l with
  | _, [] => []
  | O, _ :: l' => x :: l'
  | S i', y :: l' => y :: set_nth i' x l'
  end.

Definition set_cap (i : nat) (span : nat * nat) (st : mstate) : mstate :=
  mkState (pos st) (rest st) (set_nth i (Some span) (caps st)).

(** All ways [r] matches at [st], preferred first. *)
Fixpoint run (r : regex) (st : mstate) : list mstate :=
  match r with
  | BeginText => if (pos st =? 0)%nat then [st] else []
  | EndText => match rest st with [] => [st] | _ :: _ => [] end
  | Literal c =>
      match rest st with
      | x :: xs => if Ascii.eqb x c then [advance st xs] else []
      | [] => []
      end
  | CharClass ranges =>
      match rest st with
      | x :: xs => if in_class ranges x then [advance st xs] else []
      | [] => []
      end
  | Quest r' => run r' st ++ [st]
  | Repeat r' n =>
      (fix rep (n : nat) (st : mstate) : list mstate :=
         match n with
         | O => [st]
         | S n' => flat_map (rep n') (run r' st)
         end) n st
  | Concat r1 r2 => flat_map (run r2) (run r1 st)
  | Capture i r' =>
      map (fun st' => set_cap i (pos st, pos st') st') (run r' st)
  end.

(** The number of capture groups of [r]. *)
Fixpoint NumSubexp (r : regex) : nat :=
  match r with
  | Quest r' | Repeat r' _ => NumSubexp r'
  | Concat r1 r2 => NumSubexp r1 + NumSubexp r2
  | Capture _ r' => S (NumSubexp r')
  | _ => 0
  end.

(** The leftmost match: the first start offset at which [r] matches. *)
Fixpoint search (r : regex) (ngroups : nat) (start : nat) (input : gostring)
  : option (list (option (nat * nat))) :=
  match run r (mkState start input (repeat None (S ngroups))) with
  | st :: _ => Some (set_nth 0 (Some (start, pos st)) (caps st))
  | [] =>
      match input with
      | [] => None
      | _ :: input' => search r ngroups (S start) input'
      end
  end.

(** [re.FindStringSubmatch(s)]: the text of the leftmost match and of
    each group ([""] for a group that did not take part); [None] is the
    nil slice returned when there is no match. *)
Definition FindStringSubmatch (r : regex) (s : gostring)
  : option (list gostring) :=
  match search r (NumSubexp r) 0 s with
  | Some spans =>
      Some (map (fun c => match c with
                          | Some (i, j) => substr s i j
                          | None => []
                          end) spans)
  | None => None
  end.

End regexp.

(** ** crypto/rand *)

Module rand.

(** The entropy source: the random bytes it can still deliver. *)
Definition source : Type := list byte.

(** [rand.Read(b)]: fills [b] from the source; [n == len(b)] if and only
    if the error is nil.  The error is the one of Go before 1.24; from
    1.24 on a source that fails ends the process and no error is
    returned. *)
Definition Read (b : list byte) (src : source)
  : (list byte * nat * option error) * source :=
  if (length b <=? length src)%nat then
    ((firstn (length b) src, length b, None), skipn (length b) src)
  else
    ((src ++ skipn (length src) b, length src, Some EntropyError), []).

End rand.

(** ** bson *)

Module bson.

(** A BSON value; [Document] is the ordered [bson.D]. *)
Inductive value : Type :=
| Null
| Boolean (b : bool)
| Int64 (n : Z)
| Str (s : gostring)
| Bin (b : Binary)
| DateTime (millis : Z)
| Document (elems : list (gostring * value))
| Array (vals : list value).

(** [bson.D]. *)
Definition D : Type := list (gostring * value).

End bson.

(** ** The MongoDB driver

    The calls of package [mongo] the client issues: what the driver
    checks itself before it asks the deployment, and a deployment whose
    query language ([matches], [apply]) is left abstract. *)

Module mongo.

Import bson.

(** [options.ReturnDocument]. *)
Inductive ReturnDocument : Type := Before | After.

(** [options.FindOneAndUpdateOptions]. *)
Record FindOneAndUpdateOptions : Type := mkFindOneAndUpdateOptions {
  optReturnDocument : option ReturnDocument
}.

(** [*mongo.Client]: a client of the driver, named by its number. *)
Definition session : Type := nat.


(** A call made on the driver. *)
Inductive call : Type :=
| CallConnect (uri : gostring)
| CallUpdateOne (s : session) (db coll : gostring) (filter update : value)
| CallUpdateMany (s : session) (db coll : gostring) (filter update : value)
| CallFindOneAndUpdate (s : session) (db coll : gostring)
    (filter update : value) (opts : FindOneAndUpdateOptions).

(** The driver and the deployment behind it. *)
Record server : Type := mkServer {
  (* the connection strings whose options the driver does not accept
     ([ApplyURI], [Validate]), and why *)
  invalid : gostring -> option error;
  (* the clients created so far *)
  sessions : list session;
  (* the documents of each database and collection *)
  store : gostring -> gostring -> list value;
  (* the deployment cannot be reached: every operation that needs it
     fails with this error, the one of server selection *)
  outage : option error
}.

Definition gostring_eqb (a b : gostring) : bool :=
  if list_eq_dec ascii_dec a b then true else false.

Definition set_collection (srv : server) (db coll : gostring)
  (docs : list value) : server :=
  mkServer (invalid srv) (sessions srv)
    (fun db' coll' =>
       if gostring_eqb db' db && gostring_eqb coll' coll then docs
       else store srv db' coll')
    (outage srv).



(** [marshal]: what is sent as a document, a filter for one, has to be
    one. *)
Definition marshal (val : value) : option error :=
  match val with
  | Document _ => None
  | Null => Some ErrNilDocument
  | _ => Some TransitionError
  end.

(** [ensureDollarKey]: the first key of an update document names an
    operator. *)
Definition ensureDollarKey (doc : D) : option error :=
  match doc with
  | [] => Some (errors_New "update document must have at least one element")
  | (key, _) :: _ =>
      if strings.HasPrefix key (text "$") then None
      else Some (errors_New
                   "update document must contain key beginning with '$'")
  end.

(** One stage of an update pipeline. *)
Definition marshalStage (stage : value) : option error :=
  match stage with
  | Document doc => ensureDollarKey doc
  | other => marshal other
  end.

(** [marshalUpdateValue] where operators are required: an update
    document, or a pipeline of them; the first error is returned. *)
Definition marshalUpdateValue (update : value) : option error :=
  match update with
  | Null => Some ErrNilDocument
  | Document doc => ensureDollarKey doc
  | Array stages =>
      fold_right (fun stage rest =>
                    match marshalStage stage with
                    | Some err => Some err
                    | None => rest
                    end) None stages
  | _ => Some TransitionError
  end.

Section Collection.

(** Whether a document satisfies a filter. *)
Variable matches : value -> value -> bool.
(** A document after an update document is applied to it, or the write
    error of the server. *)
Variable apply : value -> value -> error + value.

(** The outcome of updating the first document that satisfies a
    filter. *)
Inductive updated : Type :=
| NoMatch
| WriteError (err : error)
| Updated (pre : list value) (before after : value) (post : list value).

Fixpoint update_first (filter update : value) (docs : list value) : updated :=
  match docs with
  | [] => NoMatch
  | d :: docs' =>
      if matches filter d then
        match apply update d with
        | inr d' => Updated [] d d' docs'
        | inl e => WriteError e
        end
      else
        match update_first filter update docs' with
        | Updated pre d0 d1 post => Updated (d :: pre) d0 d1 post
        | other => other
        end
  end.

(** Every document satisfying [filter] is updated. *)
Fixpoint update_all (filter update : value) (docs : list value)
  : error + list value :=
  match docs with
  | [] => inr []
  | d :: docs' =>
      match (if matches filter d then apply update d else inr d) with
      | inr d' =>
          match update_all filter update docs' with
          | inr docs'' => inr (d' :: docs'')
          | inl e => inl e
          end
      | inl e => inl e
      end
  end.

(** What the driver does before the deployment is asked: the filter
    and then the update are marshalled, and the first error is
    returned. *)
Definition checked (filter update : value) : option error :=
  match marshal filter with
  | Some err => Some err
  | None => marshalUpdateValue update
  end.

(** [Collection.UpdateOne]: no document matching is not an error. *)
Definition Collection_UpdateOne (db coll : gostring) (filter update : value)
  (srv : server) : option error * server :=
  match checked filter update with
  | Some err => (Some err, srv)
  | None =>
  match outage srv with
  | Some err => (Some err, srv)
  | None =>
      match update_first filter update (store srv db coll) with
      | Updated pre _ d' post =>
          (None, set_collection srv db coll (pre ++ d' :: post))
      | NoMatch => (None, srv)
      | WriteError e => (Some e, srv)
      end
  end
  end.

(** [Collection.UpdateMany]. *)
Definition Collection_UpdateMany (db coll : gostring) (filter update : value)
  (srv : server) : option error * server :=
  match checked filter update with
  | Some err => (Some err, srv)
  | None =>
  match outage srv with
  | Some err => (Some err, srv)
  | None =>
      match update_all filter update (store srv db coll) with
      | inr docs' => (None, set_collection srv db coll docs')
      | inl e => (Some e, srv)
      end
  end
  end.


End Collection.

End mongo.

(** ** time

    [time.Parse] for the layout [time.RFC3339]
    ([2006-01-02T15:04:05Z07:00]), as package [time] has it since
    Go 1.20: [Parse] first tries [parseRFC3339] and falls back on the
    parser that is driven by the layout. *)

Module time.

Local Open Scope Z_scope.

(** An instant, with the zone offset it was written in. *)
Record Time : Type := mkTime {
  unixSec : Z;
  nsec : Z;
  zoneOffset : Z
}.

Definition isDigitChar (c : ascii) : bool :=
  (code "0" <=? code c)%N && (code c <=? code "9")%N.

(** [isDigit(s, i)]. *)
Definition isDigit (s : gostring) (i : nat) : bool :=
  match nth_error s i with
  | Some c => isDigitChar c
  | None => false
  end.

(** [int(c - '0')]. *)
Definition digitVal (c : ascii) : Z := Z.of_N (code c) - 48.

Definition commaOrPeriod (c : ascii) : bool :=
  Ascii.eqb c "." || Ascii.eqb c ",".

(** [leadingInt]: the value of the leading digits and the rest. *)
Fixpoint leadingInt_from (x : Z) (s : gostring) : Z * gostring :=
  match s with
  | c :: s' =>
      if isDigitChar c then leadingInt_from (x * 10 + digitVal c) s'
      else (x, s)
  | [] => (x, [])
  end.

Definition leadingInt (s : gostring) : Z * gostring := leadingInt_from 0 s.

(** [atoi]: an optionally signed decimal number; [None] is [errAtoi]. *)
Definition atoi (s : gostring) : option Z :=
  let '(neg, s) :=
    match s with
    | c :: s' =>
        if Ascii.eqb c "-" || Ascii.eqb c "+" then (Ascii.eqb c "-", s')
        else (false, s)
    | [] => (false, s)
    end in
  let '(q, rem) := leadingInt s in
  match rem with
  | [] => Some (if neg then - q else q)
  | _ :: _ => None
  end.

(** [getnum(s, fixed)]: a one- or two-digit number, two digits exactly
    when [fixed]; [None] is [errBad]. *)
Definition getnum (s : gostring) (fixed : bool) : option (Z * gostring) :=
  if negb (isDigit s 0) then None
  else if negb (isDigit s 1) then
    if fixed then None
    else match s with
         | c :: s' => Some (digitVal c, s')
         | [] => None
         end
  else match s with
       | c0 :: c1 :: s' => Some (digitVal c0 * 10 + digitVal c1, s')
       | _ => None
       end.

(** [skip(value, prefix)] for a prefix without spaces. *)
Fixpoint skip (value prefix : gostring) {struct prefix} : option gostring :=
  match prefix with
  | [] => Some value
  | p :: prefix' =>
      match value with
      | v :: value' => if Ascii.eqb v p then skip value' prefix' else None
      | [] => None
      end
  end.

Definition isLeap (year : Z) : bool :=
  (year mod 4 =? 0) && (negb (year mod 100 =? 0) || (year mod 400 =? 0)).

Definition daysBefore : list Z :=
  [0; 31; 59; 90; 120; 151; 181; 212; 243; 273; 304; 334; 365].

Definition daysIn (month year : Z) : Z :=
  if (month =? 2) && isLeap year then 29
  else nth (Z.to_nat month) daysBefore 0
       - nth (Z.to_nat (month - 1)) daysBefore 0.

(** [Date(year, month, day, hour, min, sec, nsec, UTC)] on values that
    are in range: the days since 1970-01-01 and the time elapsed in the
    day. *)
Definition Date (year month day hour min sec nsec : Z) : Time :=
  let y := year - 1 in
  let d := 365 * y + y / 4 - y / 100 + y / 400 - 719162
           + nth (Z.to_nat (month - 1)) daysBefore 0
           + (if isLeap year && (3 <=? month) then 1 else 0)
           + (day - 1) in
  mkTime (d * 86400 + hour * 3600 + min * 60 + sec) nsec 0.

(** [t.addSec(-zoneOffset); t.setLoc(FixedZone("", zoneOffset))]. *)
Definition inZone (t : Time) (offset : Z) : Time :=
  mkTime (unixSec t - offset) (nsec t) offset.

(** The end of the run of digits of [s] that starts at index [n]. *)
Fixpoint digitsEnd (s : gostring) (n : nat) : nat :=
  match s with
  | c :: s' => if isDigitChar c then digitsEnd s' (S n) else n
  | [] => n
  end.

(** What [parseNanoseconds] returns: the nanoseconds, with the error
    or the range error ("fractional second") if there is one. *)
Inductive nanoseconds : Type :=
| Nanoseconds (ns : Z)
| NanosecondsBad
| NanosecondsRange (ns : Z).

(** [parseNanoseconds(value, nbytes)]: the fraction [value[0:nbytes]],
    a separator and digits, in nanoseconds.  The callers pass at least
    two characters. *)
Definition parseNanoseconds (value : gostring) (nbytes : nat) : nanoseconds :=
  match value with
  | c :: _ =>
      if negb (commaOrPeriod c) then NanosecondsBad
      else
        let nbytes := Nat.min nbytes 10 in
        match atoi (substr value 1 nbytes) with
        | None => NanosecondsBad
        | Some ns =>
            if ns <? 0 then NanosecondsRange ns
            else Nanoseconds (ns * 10 ^ Z.of_nat (10 - nbytes))
        end
  | [] => NanosecondsBad
  end.

(** *** The fast path: [parseRFC3339] *)

(** [parseUint(s, min, max)]: [None] is [ok = false]. *)
Definition parseUint (s : gostring) (min max : Z) : option Z :=
  if forallb isDigitChar s then
    let x := fst (leadingInt s) in
    if (x <? min) || (max <? x) then None else Some x
  else None.

(** The fractional second of [parseRFC3339]: the nanoseconds, and
    what follows. *)
Definition fractionalSecond (s : gostring) : Z * gostring :=
  match s with
  | c :: _ :: _ =>
      if Ascii.eqb c "." && isDigit s 1 then
        let n := digitsEnd (skipn 2 s) 2 in
        (match parseNanoseconds s n with
         | Nanoseconds ns | NanosecondsRange ns => ns
         | NanosecondsBad => 0
         end, skipn n s)
      else (0, s)
  | _ => (0, s)
  end.

(** The time zone of [parseRFC3339]: [t], read as UTC, in the zone
    that [s] spells. *)
Definition timeZone (t : Time) (s : gostring) : option Time :=
  match s with
  | [z] => if Ascii.eqb z "Z" then Some t else None
  | [sign; z1; z2; c3; z4; z5] =>
      match parseUint [z1; z2] 0 23 with
      | None => None
      | Some hr =>
      match parseUint [z4; z5] 0 59 with
      | None => None
      | Some mm =>
        if negb ((Ascii.eqb sign "-" || Ascii.eqb sign "+")
                 && Ascii.eqb c3 ":") then None
        else
          let offset := (hr * 60 + mm) * 60 in
          Some (inZone t (if Ascii.eqb sign "-" then - offset else offset))
      end end
  | _ => None
  end.

Definition parseRFC3339 (s : gostring) : option Time :=
  match s with
  | y1 :: y2 :: y3 :: y4 :: c4 :: m1 :: m2 :: c7 :: d1 :: d2 :: c10
       :: h1 :: h2 :: c13 :: n1 :: n2 :: c16 :: s1 :: s2 :: s' =>
      match parseUint [y1; y2; y3; y4] 0 9999 with
      | None => None
      | Some year =>
      match parseUint [m1; m2] 1 12 with
      | None => None
      | Some month =>
      match parseUint [d1; d2] 1 (daysIn month year) with
      | None => None
      | Some day =>
      match parseUint [h1; h2] 0 23 with
      | None => None
      | Some hour =>
      match parseUint [n1; n2] 0 59 with
      | None => None
      | Some min =>
      match parseUint [s1; s2] 0 59 with
      | None => None
      | Some sec =>
        if negb (Ascii.eqb c4 "-" && Ascii.eqb c7 "-" && Ascii.eqb c10 "T"
                 && Ascii.eqb c13 ":" && Ascii.eqb c16 ":") then None
        else
          let '(nsec, s') := fractionalSecond s' in
          timeZone (Date year month day hour min sec nsec) s'
      end end end end end end
  | _ => None
  end.

(** *** The general path: [parse], driven by the layout *)

(** The elements of a layout that occur in [RFC3339]. *)
Inductive std : Type :=
| stdLongYear          (* 2006 *)
| stdZeroMonth         (* 01 *)
| stdZeroDay           (* 02 *)
| stdHour              (* 15 *)
| stdZeroMinute        (* 04 *)
| stdZeroSecond        (* 05 *)
| stdISO8601ColonTZ.   (* Z07:00 *)

Definition stdstr (e : std) : gostring :=
  match e with
  | stdLongYear => text "2006"
  | stdZeroMonth => text "01"
  | stdZeroDay => text "02"
  | stdHour => text "15"
  | stdZeroMinute => text "04"
  | stdZeroSecond => text "05"
  | stdISO8601ColonTZ => text "Z07:00"
  end.

(** The layout [RFC3339] as [nextStdChunk] cuts it: each element with
    the literal text before it; no text follows the last element. *)
Definition RFC3339 : list (gostring * std) :=
  [ ([], stdLongYear); (["-"%char], stdZeroMonth); (["-"%char], stdZeroDay);
    (["T"%char], stdHour); ([":"%char], stdZeroMinute);
    ([":"%char], stdZeroSecond); ([], stdISO8601ColonTZ) ].

(** The time being constructed. *)
Record fields : Type := mkFields {
  f_year : Z; f_month : Z; f_day : Z;
  f_hour : Z; f_min : Z; f_sec : Z; f_nsec : Z;
  f_utc : bool;            (* z == UTC *)
  f_zoneOffset : Z         (* -1 when no offset was read *)
}.

Definition fields0 : fields := mkFields 0 (-1) (-1) 0 0 0 0 false (-1).

Definition rangeError (e : std) (value what : gostring) : error :=
  ParseError (stdstr e) value (text ": " ++ what ++ text " out of range").

(** One turn of the loop of [parse]: the element [e] is read off
    [value]. *)
Definition parseStd (e : std) (value : gostring) (f : fields)
  : result (gostring * fields) :=
  let bad := Err (ParseError (stdstr e) value []) in
  match e with
  | stdLongYear =>
      if (length value <? 4)%nat || negb (isDigit value 0) then bad
      else match atoi (firstn 4 value) with
           | None => bad
           | Some year =>
               Ok (skipn 4 value,
                   mkFields year (f_month f) (f_day f) (f_hour f) (f_min f)
                     (f_sec f) (f_nsec f) (f_utc f) (f_zoneOffset f))
           end
  | stdZeroMonth =>
      match getnum value true with
      | None => bad
      | Some (month, value') =>
          if (month <=? 0) || (12 <? month) then
            Err (rangeError e value' (text "month"))
          else
            Ok (value',
                mkFields (f_year f) month (f_day f) (f_hour f) (f_min f)
                  (f_sec f) (f_nsec f) (f_utc f) (f_zoneOffset f))
      end
  | stdZeroDay =>
      (* any two-digit day; validated once the parse is complete *)
      match getnum value true with
      | None => bad
      | Some (day, value') =>
          Ok (value',
              mkFields (f_year f) (f_month f) day (f_hour f) (f_min f)
                (f_sec f) (f_nsec f) (f_utc f) (f_zoneOffset f))
      end
  | stdHour =>
      match getnum value false with
      | None => bad
      | Some (hour, value') =>
          if (hour <? 0) || (24 <=? hour) then
            Err (rangeError e value' (text "hour"))
          else
            Ok (value',
                mkFields (f_year f) (f_month f) (f_day f) hour (f_min f)
                  (f_sec f) (f_nsec f) (f_utc f) (f_zoneOffset f))
      end
  | stdZeroMinute =>
      match getnum value true with
      | None => bad
      | Some (min, value') =>
          if (min <? 0) || (60 <=? min) then
            Err (rangeError e value' (text "minute"))
          else
            Ok (value',
                mkFields (f_year f) (f_month f) (f_day f) (f_hour f) min
                  (f_sec f) (f_nsec f) (f_utc f) (f_zoneOffset f))
      end
  | stdZeroSecond =>
      match getnum value true with
      | None => bad
      | Some (sec, value') =>
          if (sec <? 0) || (60 <=? sec) then
            Err (rangeError e value' (text "second"))
          else
            (* a fractional second in the value, none in the layout *)
            let '(nsec, value'') :=
              match value' with
              | c :: _ :: _ =>
                  if commaOrPeriod c && isDigit value' 1 then
                    let n := digitsEnd (skipn 2 value') 2 in
                    (parseNanoseconds value' n, skipn n value')
                  else (Nanoseconds (f_nsec f), value')
              | _ => (Nanoseconds (f_nsec f), value')
              end in
            match nsec with
            | NanosecondsBad => bad
            | NanosecondsRange _ =>
                Err (rangeError e value'' (text "fractional second"))
            | Nanoseconds nsec =>
                Ok (value'',
                    mkFields (f_year f) (f_month f) (f_day f) (f_hour f)
                      (f_min f) sec nsec (f_utc f) (f_zoneOffset f))
            end
      end
  | stdISO8601ColonTZ =>
      if match value with
         | c :: _ => Ascii.eqb c "Z"
         | [] => false
         end
      then
        Ok (skipn 1 value,
            mkFields (f_year f) (f_month f) (f_day f) (f_hour f) (f_min f)
              (f_sec f) (f_nsec f) true (f_zoneOffset f))
      else
      match value with
      | sign :: h1 :: h2 :: c3 :: m1 :: m2 :: value' =>
          if negb (Ascii.eqb c3 ":") then bad
          else
            match getnum [h1; h2] true with
            | None => bad
            | Some (hr, _) =>
                let mm := match getnum [m1; m2] true with
                          | Some (mm, _) => mm
                          | None => 0
                          end in
                (* the range tests use > rather than >= *)
                if 60 <? mm then
                  Err (rangeError e value'
                         (text "time zone offset minute"))
                else if 24 <? hr then
                  Err (rangeError e value' (text "time zone offset hour"))
                else
                  match getnum [m1; m2] true with
                  | None => bad
                  | Some _ =>
                      let offset := (hr * 60 + mm) * 60 in
                      if Ascii.eqb sign "+" then
                        Ok (value',
                            mkFields (f_year f) (f_month f) (f_day f)
                              (f_hour f) (f_min f) (f_sec f) (f_nsec f)
                              (f_utc f) offset)
                      else if Ascii.eqb sign "-" then
                        Ok (value',
                            mkFields (f_year f) (f_month f) (f_day f)
                              (f_hour f) (f_min f) (f_sec f) (f_nsec f)
                              (f_utc f) (- offset))
                      else bad
                  end
            end
      | _ => bad
      end
  end.

(** The loop of [parse] over the elements of the layout. *)
Fixpoint parseChunks (layout : list (gostring * std)) (value : gostring)
  (f : fields) : result (gostring * fields) :=
  match layout with
  | [] => Ok (value, f)
  | (prefix, e) :: layout' =>
      match skip value prefix with
      | None => Err (ParseError prefix value [])
      | Some value =>
          match parseStd e value f with
          | Ok (value, f) => parseChunks layout' value f
          | other => other
          end
      end
  end.

(** [quote(s)]: [s] between double quotes, a backslash before each
    double quote and backslash, and every byte below [' '] or from
    [0x80] on as [\x] and its two hex digits. *)
Definition quote (s : gostring) : gostring :=
  let lowerhex := text "0123456789abcdef" in
  "034"%char
  :: flat_map
       (fun c =>
          if (128 <=? code c)%N || (code c <? 32)%N then
            [ "\"%char; "x"%char;
              nth (N.to_nat (N.shiftr (code c) 4)) lowerhex "0"%char;
              nth (N.to_nat (N.land (code c) 15)) lowerhex "0"%char ]
          else if Ascii.eqb c "034" || Ascii.eqb c "\" then ["\"%char; c]
          else [c]) s
  ++ ["034"%char].

(** [parse(layout, value, UTC, Local)]. *)
Definition parse (layout : list (gostring * std)) (value : gostring)
  : result Time :=
  match parseChunks layout value fields0 with
  | Ok (value, f) =>
      match value with
      | _ :: _ =>
          Err (ParseError [] value (text ": extra text: " ++ quote value))
      | [] =>
          (* validate the day of the month *)
          if (f_day f <? 1) || (daysIn (f_month f) (f_year f) <? f_day f) then
            Err (ParseError [] value (text ": day out of range"))
          else
            let t := Date (f_year f) (f_month f) (f_day f) (f_hour f)
                       (f_min f) (f_sec f) (f_nsec f) in
            if f_utc f then Ok t
            else if negb (f_zoneOffset f =? -1) then
              Ok (inZone t (f_zoneOffset f))
            else Ok t
      end
  | Err e => Err e
  | Panic => Panic
  end.

(** [time.Parse(time.RFC3339, value)]: the fast path, then the general
    one. *)
Definition Parse_RFC3339 (value : gostring) : result Time :=
  match parseRFC3339 value with
  | Some t => Ok t
  | None => parse RFC3339 value
  end.

End time.

(** ** The process: the log and the driver *)

(** A line written with [log.Print] or [log.Printf]. *)
Inductive logline : Type :=
| LogPrint (msg : string)
| LogPrintf (format : string) (err : error).

Record world : Type := mkWorld {
  srv : mongo.server;          (* the driver and the deployment *)
  calls : list mongo.call;     (* the driver calls made so far *)
  logged : list logline        (* the log *)
}.


Definition log_Printf (format : string) (err : error) (w : world) : world :=
  mkWorld (srv w) (calls w) (logged w ++ [LogPrintf format err]).

(** A driver call: recorded, then run. *)
Definition driver {A : Type} (c : mongo.call)
  (run : mongo.server -> A * mongo.server) (w : world) : A * world :=
  let (r, srv') := run (srv w) in
  (r, mkWorld srv' (calls w ++ [c]) (logged w)).

(** ** The module facade *)

Module Mongo.

Import regexp.

Local Notation "r1 ;; r2" := (Concat r1 r2) (at level 61, right associativity).

Definition hexdigit : regex := CharClass [("0", "9"); ("a", "f"); ("A", "F")].

(** [^([0-9a-fA-F]{8})-?([0-9a-fA-F]{4})-?([0-9a-fA-F]{4})-?([0-9a-fA-F]{4})-?([0-9a-fA-F]{12})$] *)
Definition re : regex :=
  BeginText ;;
  Capture 1 (Repeat hexdigit 8) ;; Quest (Literal "-") ;;
  Capture 2 (Repeat hexdigit 4) ;; Quest (Literal "-") ;;
  Capture 3 (Repeat hexdigit 4) ;; Quest (Literal "-") ;;
  Capture 4 (Repeat hexdigit 4) ;; Quest (Literal "-") ;;
  Capture 5 (Repeat hexdigit 12) ;;
  EndText.

(** [ConvertStringToUuid]: a UUID in binary format from a string. *)
Definition ConvertStringToUuid (uuid : gostring) : result Binary :=
  match FindStringSubmatch re uuid with
  | None => Err (Errorf_invalid_UUID_format uuid)
  | Some matches =>
      (* remove dashes: matches[1:] *)
      let cleanUUID := strings.Join (tl matches) [] in
      match hex.DecodeString cleanUUID with
      | (_, Some err) => Err (Errorf_error_decoding_UUID_string err)
      | (uuidBytes, None) => Ok (mkBinary x04 uuidBytes)
      end
  end.

(** [ConvertUuidToString]: a binary UUID (subtype 4) back to its string
    format. *)
Definition ConvertUuidToString (bin : Binary) : result gostring :=
  if negb (Byte.eqb (Subtype bin) x04) then
    Err (Errorf_unsupported_binary_subtype (Subtype bin))
  else if negb (length (Data bin) =? 16)%nat then
    Err (Errorf_invalid_UUID_binary_length (length (Data bin)))
  else
    let hexStr := hex.EncodeToString (Data bin) in
    match slice hexStr 0 8, slice hexStr 8 12, slice hexStr 12 16,
          slice hexStr 16 20, slice hexStr 20 32 with
    | Some g1, Some g2, Some g3, Some g4, Some g5 =>
        Ok (fmt.Sprintf (text "%s-%s-%s-%s-%s") [g1; g2; g3; g4; g5])
    | _, _, _, _, _ => Panic
    end.

(** [GenerateUuid]: a new UUID in binary format. *)
Definition GenerateUuid (src : rand.source) : result Binary * rand.source :=
  let uuid := repeat x00 16 in
  let '((uuid, _, err), src) := rand.Read uuid src in
  match err with
  | Some err => (Err err, src)
  | None => (Ok (mkBinary x04 uuid), src)
  end.

(** [ConvertStringToIsoDate]: an ISO 8601 string as an ISODate. *)
Definition ConvertStringToIsoDate (date : gostring) : result time.Time :=
  match time.Parse_RFC3339 date with
  | Ok parsedTime => Ok parsedTime
  | Err err => Err err
  | Panic => Panic
  end.

(** [Client]: the Mongo client wrapper. *)
Record Client : Type := mkClient { client : mongo.session }.


End Mongo.

(** ** The client wrapper *)

Module Client.

Import bson.
Import Mongo.

Section Methods.

Variable matches : value -> value -> bool.
Variable apply : value -> value -> error + value.

Definition UpdateOne (c : Client) (database collection : gostring)
  (filter : value) (data : D) (w : world) : option error * world :=
  let (err, w) :=
    driver (mongo.CallUpdateOne (client c) database collection filter
              (Document data))
           (mongo.Collection_UpdateOne matches apply database collection
              filter (Document data)) w in
  match err with
  | Some err => (Some err, log_Printf "Error while updating the document: %v" err w)
  | None => (None, w)
  end.

Definition UpdateMany (c : Client) (database collection : gostring)
  (filter : value) (data : D) (w : world) : option error * world :=
  let update := Document [(text "$set", Document data)] in
  let (err, w) :=
    driver (mongo.CallUpdateMany (client c) database collection filter update)
           (mongo.Collection_UpdateMany matches apply database collection
              filter update) w in
  match err with
  | Some err => (Some err, log_Printf "Error while updating the documents: %v" err w)
  | None => (None, w)
  end.


End Methods.

End Client.

(** ** The notions of the specification

    The forms the specification speaks of, written from its words, to
    compare the code with. *)

Module Spec.

Definition between (lo hi c : ascii) : bool :=
  (code lo <=? code c)%N && (code c <=? code hi)%N.

Definition isDash (c : ascii) : bool := Ascii.eqb c "-".

(** A hex digit, in either case. *)
Definition isHex (c : ascii) : bool :=
  between "0" "9" c || between "a" "f" c || between "A" "F" c.

(** A lower-case hex digit. *)
Definition isLowerHex (c : ascii) : bool :=
  between "0" "9" c || between "a" "f" c.

Definition toLower (c : ascii) : ascii :=
  if between "A" "Z" c then ascii_of_N (code c + 32) else c.

(** The 32-character undashed layout. *)
Definition undashed (s : gostring) : bool :=
  (length s =? 32)%nat && forallb isHex s.

(** The 36-character dashed layout, grouped 8-4-4-4-12. *)
Definition dashed (s : gostring) : bool :=
  (length s =? 36)%nat
  && forallb isHex (substr s 0 8) && isDash (nth 8 s "0")
  && forallb isHex (substr s 9 13) && isDash (nth 13 s "0")
  && forallb isHex (substr s 14 18) && isDash (nth 18 s "0")
  && forallb isHex (substr s 19 23) && isDash (nth 23 s "0")
  && forallb isHex (substr s 24 36).

(** 32 hex digits grouped 8-4-4-4-12 with dashes. *)
Definition group (h : gostring) : gostring :=
  substr h 0 8 ++ "-" :: substr h 8 12 ++ "-" :: substr h 12 16
    ++ "-" :: substr h 16 20 ++ "-" :: substr h 20 32.

(** The canonical form of a UUID string: lower case, dashed. *)
Definition canonical (s : gostring) : gostring :=
  group (map toLower (filter (fun c => negb (isDash c)) s)).

(** The digit of a value below 16, in lower case. *)
Definition lowerHexDigit (d : N) : ascii :=
  if (d <? 10)%N then ascii_of_N (code "0" + d)
  else ascii_of_N (code "a" + (d - 10)).

(** The bytes in lower-case hex, two digits a byte, the high one
    first. *)
Definition lowerHex (data : list byte) : gostring :=
  flat_map (fun b => [lowerHexDigit (Byte.to_N b / 16);
                      lowerHexDigit (Byte.to_N b mod 16)]) data.

(** A version-4 UUID of RFC 4122: the version is the high half of byte
    6, the variant the two high bits of byte 8. *)
Definition rfc4122_v4 (data : list byte) : bool :=
  match nth_error data 6, nth_error data 8 with
  | Some b6, Some b8 =>
      (Byte.to_N b6 / 16 =? 4)%N && (Byte.to_N b8 / 64 =? 2)%N
  | _, _ => false
  end.

(** *** RFC 3339 timestamps *)

Local Open Scope Z_scope.

Definition isDigit (c : ascii) : bool := between "0" "9" c.

Definition digit (c : ascii) : Z := Z.of_N (code c) - Z.of_N (code "0").

Fixpoint decimal_from (acc : Z) (s : gostring) : Z :=
  match s with
  | c :: s' => decimal_from (acc * 10 + digit c) s'
  | [] => acc
  end.

(** The number a string of digits spells. *)
Definition decimal (s : gostring) : Z := decimal_from 0 s.

(** A string of digits spelling a number from [lo] to [hi]. *)
Definition number (lo hi : Z) (s : gostring) : option Z :=
  if forallb isDigit s then
    let v := decimal s in
    if (lo <=? v) && (v <=? hi) then Some v else None
  else None.

Definition leap (y : Z) : bool :=
  (y mod 4 =? 0) && (negb (y mod 100 =? 0) || (y mod 400 =? 0)).

(** The days of a month: 30 in April, June, September and November,
    28 or 29 in February, 31 otherwise. *)
Definition month_days (y m : Z) : Z :=
  if (m =? 4) || (m =? 6) || (m =? 9) || (m =? 11) then 30
  else if m =? 2 then (if leap y then 29 else 28)
  else 31.

(** The days from 1970-01-01 to a date of the proleptic Gregorian
    calendar, counted in eras of 400 years that start in March. *)
Definition days_from_civil (y m d : Z) : Z :=
  let y' := if m <=? 2 then y - 1 else y in
  let era := y' / 400 in
  let yoe := y' - era * 400 in
  let mp := if 2 <? m then m - 3 else m + 9 in
  let doy := (153 * mp + 2) / 5 + d - 1 in
  let doe := yoe * 365 + yoe / 4 - yoe / 100 + doy in
  era * 146097 + doe - 719468.

(** The leading digits of a string, and the rest. *)
Fixpoint span_digits (s : gostring) : gostring * gostring :=
  match s with
  | c :: s' =>
      if isDigit c then let (d, r) := span_digits s' in (c :: d, r)
      else ([], s)
  | [] => ([], [])
  end.

(** [time-secfrac = "." 1*DIGIT], optional: the nanoseconds it
    spells, and the rest. *)
Definition secfrac (s : gostring) : option (Z * gostring) :=
  match s with
  | c :: s' =>
      if Ascii.eqb c "." then
        let (d, r) := span_digits s' in
        match d with
        | [] => None
        | _ :: _ => Some (decimal (firstn 9 (d ++ repeat "0"%char 9)), r)
        end
      else Some (0, s)
  | [] => Some (0, s)
  end.

(** [time-offset = "Z" / ("+" / "-") time-hour ":" time-minute], in
    seconds east of UTC; [lower] admits ["z"]. *)
Definition time_offset (lower : bool) (s : gostring) : option Z :=
  match s with
  | [z] =>
      if Ascii.eqb z "Z" || (lower && Ascii.eqb z "z") then Some 0 else None
  | [sign; h1; h2; c; m1; m2] =>
      match number 0 23 [h1; h2], number 0 59 [m1; m2] with
      | Some h, Some m =>
          if negb (Ascii.eqb c ":") then None
          else if Ascii.eqb sign "+" then Some (h * 3600 + m * 60)
          else if Ascii.eqb sign "-" then Some (- (h * 3600 + m * 60))
          else None
      | _, _ => None
      end
  | _ => None
  end.

(** [date-time = full-date "T" full-time] of RFC 3339, section 5.6: the
    instant it denotes, in seconds since 1970-01-01T00:00:00Z and
    nanoseconds, or [None] when the string is not a [date-time].
    [lower] admits ["t"] and ["z"] as the note of section 5.6 does;
    [maxsec] is the largest [time-second], 60 with leap seconds. *)
Definition date_time (lower : bool) (maxsec : Z) (s : gostring)
  : option (Z * Z) :=
  match s with
  | y1 :: y2 :: y3 :: y4 :: c4 :: m1 :: m2 :: c7 :: d1 :: d2 :: c10
       :: h1 :: h2 :: c13 :: n1 :: n2 :: c16 :: s1 :: s2 :: tail =>
      match number 0 9999 [y1; y2; y3; y4], number 1 12 [m1; m2] with
      | Some y, Some m =>
          match number 1 (month_days y m) [d1; d2], number 0 23 [h1; h2],
                number 0 59 [n1; n2], number 0 maxsec [s1; s2],
                secfrac tail with
          | Some d, Some h, Some n, Some sec, Some (ns, zone) =>
              match time_offset lower zone with
              | Some off =>
                  if Ascii.eqb c4 "-" && Ascii.eqb c7 "-"
                     && (Ascii.eqb c10 "T" || (lower && Ascii.eqb c10 "t"))
                     && Ascii.eqb c13 ":" && Ascii.eqb c16 ":"
                  then Some (days_from_civil y m d * 86400 + h * 3600
                             + n * 60 + sec - off, ns)
                  else None
              | None => None
              end
          | _, _, _, _, _ => None
          end
      | _, _ => None
      end
  | _ => None
  end.

(** A [date-time] of RFC 3339. *)
Definition rfc3339 (s : gostring) : option (Z * Z) := date_time true 60 s.

End Spec.

(** ** The timestamps the layout accepts

    The form of the strings [time.Parse] accepts for the layout
    [RFC3339]: a [date-time] of RFC 3339 in upper case, except that the
    hour may have one digit, a comma may stand before the fraction and
    the offset may go up to 24:60. *)

Module Layout.

Local Open Scope Z_scope.

(** One or two digits. *)
Definition short (hh : gostring) : Prop :=
  length hh = 1%nat \/ length hh = 2%nat.

(** Nothing, or a period or a comma and at least one digit. *)
Definition fraction (frac : gostring) : Prop :=
  frac = []
  \/ exists c d ds,
       frac = c :: d :: ds /\ (c = "."%char \/ c = ","%char)
       /\ forallb Spec.isDigit (d :: ds) = true.

(** ["Z"], or a sign, two digits up to 24, a colon and two digits up
    to 60. *)
Definition zone (z : gostring) : Prop :=
  z = ["Z"%char]
  \/ exists sign z1 z2 z4 z5 hr mm,
       z = [sign; z1; z2; ":"%char; z4; z5]
       /\ (sign = "+"%char \/ sign = "-"%char)
       /\ Spec.number 0 24 [z1; z2] = Some hr
       /\ Spec.number 0 60 [z4; z5] = Some mm.

Inductive accepted : gostring -> Prop :=
| Accepted (y1 y2 y3 y4 m1 m2 d1 d2 n1 n2 s1 s2 : ascii)
    (hh frac z : gostring) (y m d h n sc : Z) :
    Spec.number 0 9999 [y1; y2; y3; y4] = Some y ->
    Spec.number 1 12 [m1; m2] = Some m ->
    Spec.number 1 (Spec.month_days y m) [d1; d2] = Some d ->
    short hh -> Spec.number 0 23 hh = Some h ->
    Spec.number 0 59 [n1; n2] = Some n ->
    Spec.number 0 59 [s1; s2] = Some sc ->
    fraction frac -> zone z ->
    accepted ([y1; y2; y3; y4] ++ "-"%char :: [m1; m2] ++ "-"%char :: [d1; d2]
                ++ "T"%char :: hh ++ ":"%char :: [n1; n2]
                ++ ":"%char :: [s1; s2] ++ frac ++ z).

End Layout.

(** ** The pattern, step by step

    What the UUID pattern does without backtracking, and the shapes of
    what it matches; the proofs relate the matcher to these. *)

Module Steps.

Import regexp.

Definition hexranges : list (ascii * ascii) :=
  [("0", "9"); ("a", "f"); ("A", "F")].

(** The first [n] characters exist and belong to the class. *)
Definition classok (R : list (ascii * ascii)) (n : nat) (s : gostring) : bool :=
  (n <=? length s)%nat && forallb (in_class R) (firstn n s).

(** What the pattern does, one element at a time, without
    backtracking. *)
Definition step_group (i n : nat) (st : mstate) : option mstate :=
  if classok hexranges n (rest st)
  then Some (mkState (pos st + n) (skipn n (rest st))
               (set_nth i (Some (pos st, pos st + n)) (caps st)))
  else None.

Definition step_dash (st : mstate) : mstate :=
  match rest st with
  | x :: xs => if Ascii.eqb x "-" then advance st xs else st
  | [] => st
  end.

Definition step_end (st : mstate) : option mstate :=
  match rest st with
  | [] => Some st
  | _ :: _ => None
  end.

Definition bind {A B : Type} (x : option A) (f : A -> option B) : option B :=
  match x with
  | Some a => f a
  | None => None
  end.

Definition uuid_match (st : mstate) : option mstate :=
  bind (step_group 1 8 st) (fun st =>
  bind (step_group 2 4 (step_dash st)) (fun st =>
  bind (step_group 3 4 (step_dash st)) (fun st =>
  bind (step_group 4 4 (step_dash st)) (fun st =>
  bind (step_group 5 12 (step_dash st)) step_end)))).

Definition to_list {A : Type} (x : option A) : list A :=
  match x with
  | Some a => [a]
  | None => []
  end.

Definition span_text (s : gostring) (c : option (nat * nat)) : gostring :=
  match c with
  | Some (i, j) => substr s i j
  | None => []
  end.

(** [n] hex digits. *)
Definition hexn (n : nat) (g : gostring) : Prop :=
  length g = n /\ forallb Spec.isHex g = true.

(** A dash, or nothing. *)
Definition dashopt (d : gostring) : Prop := d = [] \/ d = ["-"].

(** The matcher has consumed [pre] of the input [s]. *)
Definition at_prefix (s pre : gostring) (st : mstate) : Prop :=
  s = pre ++ rest st /\ pos st = length pre.

End Steps.

(** ** The strings the UUID pattern accepts *)

Module Shape.

Import Steps.

(** Five runs of 8, 4, 4, 4 and 12 hex digits, with or without a dash
    after each of the first four. *)
Definition uuid (s : gostring) : Prop :=
  exists g1 d1 g2 d2 g3 d3 g4 d4 g5,
    s = g1 ++ d1 ++ g2 ++ d2 ++ g3 ++ d3 ++ g4 ++ d4 ++ g5
    /\ hexn 8 g1 /\ hexn 4 g2 /\ hexn 4 g3 /\ hexn 4 g4 /\ hexn 12 g5
    /\ dashopt d1 /\ dashopt d2 /\ dashopt d3 /\ dashopt d4.

End Shape.

(** * Verification *)

(** ** encoding/hex *)

Module hex_facts.

Import hex Steps.

Lemma nibbles_of_byte (v : byte) :
  reverseHexTable (nth (shr4 v) hextable "0") = N.of_nat (shr4 v)
  /\ reverseHexTable (nth (and0f v) hextable "0") = N.of_nat (and0f v)
  /\ shl4_or (N.of_nat (shr4 v)) (N.of_nat (and0f v)) = v
  /\ (N.of_nat (shr4 v) <= 15)%N /\ (N.of_nat (and0f v) <= 15)%N.
Proof. destruct v; vm_compute; intuition discriminate. Qed.

Lemma digits_of_byte (v : byte) :
  Spec.isLowerHex (nth (shr4 v) hextable "0") = true
  /\ Spec.isLowerHex (nth (and0f v) hextable "0") = true
  /\ nth (shr4 v) hextable "0" = Spec.lowerHexDigit (Byte.to_N v / 16)
  /\ nth (and0f v) hextable "0" = Spec.lowerHexDigit (Byte.to_N v mod 16).
Proof. destruct v; vm_compute; intuition. Qed.

Ltac by_ascii_cases :=
  let b0 := fresh in let b1 := fresh in let b2 := fresh in
  let b3 := fresh in let b4 := fresh in let b5 := fresh in
  let b6 := fresh in let b7 := fresh in
  intros [b0 b1 b2 b3 b4 b5 b6 b7];
  destruct b0, b1, b2, b3, b4, b5, b6, b7; vm_compute;
  try reflexivity; try discriminate; intuition (try discriminate).

Lemma isHex_in_class : forall c, Spec.isHex c = regexp.in_class hexranges c.
Proof. by_ascii_cases. Qed.

Lemma isHex_reverseHexTable :
  forall c, Spec.isHex c = negb (15 <? reverseHexTable c)%N.
Proof. by_ascii_cases. Qed.

Lemma isLowerHex_isHex : forall c, Spec.isLowerHex c = true -> Spec.isHex c = true.
Proof. by_ascii_cases. Qed.

Lemma isHex_not_dash : forall c, Spec.isHex c = true -> Spec.isDash c = false.
Proof. by_ascii_cases. Qed.

Lemma hextable_reverse :
  forall c, Spec.isHex c = true ->
  nth (N.to_nat (reverseHexTable c)) hextable "0" = Spec.toLower c.
Proof. by_ascii_cases. Qed.

Ltac small_N a :=
  destruct a as [|a]; [| repeat (destruct a as [a|a|]; try lia)].

Lemma nibbles_of_shl4_or (a b : N) :
  (a <= 15)%N -> (b <= 15)%N ->
  shr4 (shl4_or a b) = N.to_nat a /\ and0f (shl4_or a b) = N.to_nat b.
Proof.
  intros Ha Hb. small_N a; small_N b; vm_compute; split; reflexivity.
Qed.

Lemma pair_ind {A : Type} (P : list A -> Prop) :
  P [] -> (forall x, P [x]) -> (forall x y l, P l -> P (x :: y :: l)) ->
  forall l, P l.
Proof.
  intros H0 H1 H2 l.
  assert (H : P l /\ forall x, P (x :: l)).
  { induction l as [|y l [IH1 IH2]]; split; auto. }
  apply H.
Qed.

Lemma EncodeToString_length (data : list byte) :
  length (EncodeToString data) = 2 * length data.
Proof. induction data as [|v data IH]; simpl; [reflexivity | rewrite IH; lia]. Qed.

Lemma EncodeToString_lowerHex (data : list byte) :
  EncodeToString data = Spec.lowerHex data.
Proof.
  induction data as [|v data IH]; [reflexivity|].
  cbn [EncodeToString Spec.lowerHex flat_map app].
  destruct (digits_of_byte v) as (_ & _ & -> & ->). now rewrite IH.
Qed.

Lemma EncodeToString_isLowerHex (data : list byte) :
  forallb Spec.isLowerHex (EncodeToString data) = true.
Proof.
  induction data as [|v data IH]; [reflexivity|].
  cbn [EncodeToString forallb].
  destruct (digits_of_byte v) as (-> & -> & _). exact IH.
Qed.

(** Decoding undoes encoding. *)
Lemma Decode_EncodeToString (data : list byte) :
  Decode (EncodeToString data) = (data, None).
Proof.
  induction data as [|v data IH]; [reflexivity|].
  cbn [EncodeToString Decode].
  destruct (nibbles_of_byte v) as (-> & -> & Hv & Ha & Hb).
  apply N.ltb_ge in Ha, Hb. rewrite Ha, Hb, IH, Hv. reflexivity.
Qed.

(** An even number of hex digits always decodes, and encoding the
    bytes gives the digits back in lower case. *)
Lemma Decode_hex (h : gostring) :
  forallb Spec.isHex h = true -> Nat.even (length h) = true ->
  exists data,
    Decode h = (data, None)
    /\ EncodeToString data = map Spec.toLower h
    /\ 2 * length data = length h.
Proof.
  induction h as [|x|x y h IH] using pair_ind; intros Hhex Hlen.
  - exists []. repeat split.
  - discriminate.
  - cbn [forallb] in Hhex.
    apply andb_prop in Hhex as [Hx Hhex]. apply andb_prop in Hhex as [Hy Hhex].
    destruct (IH Hhex Hlen) as (data & Hdec & Henc & Hl).
    exists (shl4_or (reverseHexTable x) (reverseHexTable y) :: data).
    cbn [Decode].
    pose proof Hx as Hx'. pose proof Hy as Hy'.
    rewrite isHex_reverseHexTable in Hx', Hy'.
    apply negb_true_iff in Hx', Hy'. rewrite Hx', Hy', Hdec.
    apply N.ltb_ge in Hx', Hy'.
    destruct (nibbles_of_shl4_or _ _ Hx' Hy') as [Hhi Hlo].
    repeat split.
    + cbn [EncodeToString map]. rewrite Hhi, Hlo, Henc.
      now rewrite !hextable_reverse.
    + cbn [length]. lia.
Qed.

End hex_facts.

(** ** regexp *)

Module regexp_facts.

Import regexp Steps.

Lemma run_Repeat_S (r : regex) (n : nat) (st : mstate) :
  run (Repeat r (S n)) st = flat_map (run (Repeat r n)) (run r st).
Proof. reflexivity. Qed.

Lemma run_CharClass (R : list (ascii * ascii)) (st : mstate) :
  run (CharClass R) st =
  match rest st with
  | x :: xs => if in_class R x then [advance st xs] else []
  | [] => []
  end.
Proof. reflexivity. Qed.

Lemma run_Concat (r1 r2 : regex) (st : mstate) :
  run (Concat r1 r2) st = flat_map (run r2) (run r1 st).
Proof. reflexivity. Qed.

Lemma run_Capture (i : nat) (r : regex) (st : mstate) :
  run (Capture i r) st =
  map (fun st' => set_cap i (pos st, pos st') st') (run r st).
Proof. reflexivity. Qed.

Lemma run_Quest_Literal (c : ascii) (st : mstate) :
  run (Quest (Literal c)) st =
  match rest st with
  | x :: xs => if Ascii.eqb x c then [advance st xs; st] else [st]
  | [] => [st]
  end.
Proof.
  cbn [run]. destruct (rest st) as [|x xs]; [reflexivity|].
  now destruct (Ascii.eqb x c).
Qed.

Lemma run_Repeat_class (R : list (ascii * ascii)) (n : nat) :
  forall st,
    run (Repeat (CharClass R) n) st =
    if classok R n (rest st)
    then [mkState (pos st + n) (skipn n (rest st)) (caps st)]
    else [].
Proof.
  induction n as [|n IH]; intros [p s c].
  - cbn. now rewrite Nat.add_0_r.
  - rewrite run_Repeat_S, run_CharClass. unfold classok. cbn [rest pos caps].
    destruct s as [|x xs]; [reflexivity|].
    cbn [firstn forallb length skipn].
    destruct (in_class R x); [|now rewrite andb_false_r].
    cbn [flat_map]. rewrite IH, app_nil_r. unfold classok, advance.
    cbn [rest pos caps]. rewrite Nat.add_succ_r. reflexivity.
Qed.

(** A captured run of [n] characters of a class, then [K]. *)
Lemma run_group (i : nat) (R : list (ascii * ascii)) (n : nat) (K : regex)
  (st : mstate) :
  run (Concat (Capture i (Repeat (CharClass R) n)) K) st =
  if classok R n (rest st)
  then run K (mkState (pos st + n) (skipn n (rest st))
                (set_nth i (Some (pos st, pos st + n)) (caps st)))
  else [].
Proof.
  rewrite run_Concat, run_Capture, run_Repeat_class.
  destruct (classok R n (rest st)); [|reflexivity].
  cbn [map flat_map]. now rewrite app_nil_r.
Qed.

(** An optional character, then a [K] that cannot start with it. *)
Lemma run_optional (c : ascii) (K : regex) (st : mstate) :
  (forall st', hd_error (rest st') = Some c -> run K st' = []) ->
  run (Concat (Quest (Literal c)) K) st =
  match rest st with
  | x :: xs => if Ascii.eqb x c then run K (advance st xs) else run K st
  | [] => run K st
  end.
Proof.
  intros HK. rewrite run_Concat, run_Quest_Literal.
  destruct (rest st) as [|x xs] eqn:E.
  - cbn [flat_map]. now rewrite app_nil_r.
  - destruct (Ascii.eqb x c) eqn:Ex; cbn [flat_map].
    + rewrite app_nil_r, (HK st), app_nil_r; [reflexivity|].
      rewrite E. apply Ascii.eqb_eq in Ex. now subst.
    + now rewrite app_nil_r.
Qed.

End regexp_facts.

(** ** The UUID pattern *)

Module uuid_facts.

Import regexp Steps regexp_facts hex_facts Mongo.

Local Notation "r1 ;; r2" := (Concat r1 r2) (at level 61, right associativity).

Lemma run_group_step (i n : nat) (K : regex) (st : mstate) :
  run (Capture i (Repeat hexdigit n) ;; K) st =
  match step_group i n st with
  | Some st' => run K st'
  | None => []
  end.
Proof.
  unfold hexdigit, step_group. rewrite run_group.
  now destruct (classok _ n (rest st)).
Qed.

Lemma group_rejects_dash (i n : nat) (K : regex) (st : mstate) :
  hd_error (rest st) = Some "-" ->
  run (Capture i (Repeat hexdigit (S n)) ;; K) st = [].
Proof.
  intros H. rewrite run_group_step. unfold step_group, classok.
  destruct (rest st) as [|x xs]; [discriminate|].
  injection H as ->. cbn [firstn forallb].
  replace (in_class hexranges "-") with false by reflexivity.
  now rewrite andb_false_r.
Qed.

Lemma run_dash_group (i n : nat) (K : regex) (st : mstate) :
  run (Quest (Literal "-") ;; Capture i (Repeat hexdigit (S n)) ;; K) st =
  match step_group i (S n) (step_dash st) with
  | Some st' => run K st'
  | None => []
  end.
Proof.
  rewrite run_optional by (intros; now apply group_rejects_dash).
  unfold step_dash.
  destruct (rest st) as [|x xs]; [apply run_group_step|].
  destruct (Ascii.eqb x "-"); apply run_group_step.
Qed.

Lemma run_BeginText (K : regex) (st : mstate) :
  run (BeginText ;; K) st = if (pos st =? 0)%nat then run K st else [].
Proof.
  rewrite run_Concat.
  change (run BeginText st) with (if (pos st =? 0)%nat then [st] else []).
  destruct (pos st =? 0)%nat; cbn [flat_map]; [apply app_nil_r | reflexivity].
Qed.

Lemma run_re (st : mstate) :
  pos st = 0 -> run re st = to_list (uuid_match st).
Proof.
  intros Hpos. unfold re, uuid_match.
  rewrite run_BeginText, Hpos. cbn [Nat.eqb].
  rewrite run_group_step.
  destruct (step_group 1 8 st) as [st1|]; [|reflexivity]. cbn [bind].
  rewrite run_dash_group.
  destruct (step_group 2 4 (step_dash st1)) as [st2|]; [|reflexivity].
  cbn [bind]. rewrite run_dash_group.
  destruct (step_group 3 4 (step_dash st2)) as [st3|]; [|reflexivity].
  cbn [bind]. rewrite run_dash_group.
  destruct (step_group 4 4 (step_dash st3)) as [st4|]; [|reflexivity].
  cbn [bind].
  change (Quest (Literal "-") ;; Capture 5 (Repeat hexdigit 12) ;; EndText)
    with (Quest (Literal "-") ;; Capture 5 (Repeat hexdigit (S 11)) ;; EndText).
  rewrite run_dash_group.
  destruct (step_group 5 12 (step_dash st4)) as [st5|]; [|reflexivity].
  cbn [bind run]. unfold step_end. now destruct (rest st5).
Qed.

Lemma search_BeginText (K : regex) (n : nat) (input : gostring) :
  forall start, start <> 0 -> search (BeginText ;; K) n start input = None.
Proof.
  induction input as [|x input IH]; intros start Hs;
    cbn [search]; rewrite run_BeginText; cbn [pos];
    destruct start as [|start]; try congruence; cbn [Nat.eqb].
  - reflexivity.
  - now apply IH.
Qed.

(** The pattern either fails or matches in exactly one way. *)
Lemma FindStringSubmatch_re (s : gostring) :
  FindStringSubmatch re s =
  match uuid_match (mkState 0 s (repeat None 6)) with
  | Some st =>
      Some (map (span_text s) (set_nth 0 (Some (0, pos st)) (caps st)))
  | None => None
  end.
Proof.
  unfold FindStringSubmatch.
  change (NumSubexp re) with 5.
  replace (search re 5 0 s) with
    (match uuid_match (mkState 0 s (repeat None 6)) with
     | Some st => Some (set_nth 0 (Some (0, pos st)) (caps st))
     | None => None
     end).
  - now destruct (uuid_match _).
  - destruct s as [|x s]; cbn [search]; rewrite run_re by reflexivity;
      destruct (uuid_match _); try reflexivity.
    symmetry. now apply search_BeginText.
Qed.

Lemma substr_app (pre g t : gostring) :
  substr (pre ++ g ++ t) (length pre) (length pre + length g) = g.
Proof.
  unfold substr. rewrite skipn_app, skipn_all, Nat.sub_diag. cbn [skipn app].
  replace (length pre + length g - length pre) with (length g) by lia.
  rewrite firstn_app, firstn_all, Nat.sub_diag. cbn [firstn]. apply app_nil_r.
Qed.

Lemma forallb_in_class (g : gostring) :
  forallb (in_class hexranges) g = forallb Spec.isHex g.
Proof.
  induction g as [|x g IH]; [reflexivity|].
  cbn [forallb]. now rewrite IH, isHex_in_class.
Qed.

Lemma step_group_inv (s pre : gostring) (i n : nat) (st st' : mstate) :
  at_prefix s pre st -> step_group i n st = Some st' ->
  exists g,
    hexn n g /\ at_prefix s (pre ++ g) st'
    /\ caps st' = set_nth i (Some (length pre, length pre + n)) (caps st)
    /\ substr s (length pre) (length pre + n) = g.
Proof.
  intros [Hs Hp] H. unfold step_group, classok in H.
  destruct (n <=? length (rest st))%nat eqn:Hn; [|discriminate].
  destruct (forallb _ _) eqn:Hg; [|discriminate].
  injection H as <-. apply Nat.leb_le in Hn.
  exists (firstn n (rest st)).
  assert (Hl : length (firstn n (rest st)) = n) by (rewrite length_firstn; lia).
  repeat split.
  - exact Hl.
  - now rewrite <- forallb_in_class.
  - cbn [rest]. now rewrite <- app_assoc, firstn_skipn.
  - cbn [pos]. rewrite length_app, Hl. lia.
  - cbn [caps]. now rewrite Hp.
  - rewrite Hs, <- (firstn_skipn n (rest st)).
    pose proof (substr_app pre (firstn n (rest st)) (skipn n (rest st))) as HH.
    rewrite Hl in HH. rewrite HH. now rewrite firstn_skipn.
Qed.

Lemma step_dash_inv (s pre : gostring) (st : mstate) :
  at_prefix s pre st ->
  exists d,
    dashopt d /\ at_prefix s (pre ++ d) (step_dash st)
    /\ caps (step_dash st) = caps st.
Proof.
  intros [Hs Hp]. unfold step_dash.
  destruct (rest st) as [|x xs] eqn:E.
  - exists []. repeat split; [now left | now rewrite app_nil_r, E | now rewrite app_nil_r].
  - destruct (Ascii.eqb x "-") eqn:Ex.
    + apply Ascii.eqb_eq in Ex. subst x. exists ["-"]. repeat split.
      * now right.
      * cbn [advance rest]. now rewrite <- app_assoc.
      * cbn [advance pos]. rewrite length_app, Hp. cbn [length]. lia.
    + exists []. repeat split; [now left | now rewrite app_nil_r, E | now rewrite app_nil_r].
Qed.

(** Whatever the pattern matches is five runs of hex digits, each
    optionally followed by a dash, and the groups are the runs. *)
Lemma FindStringSubmatch_sound (s : gostring) (matches : list gostring) :
  FindStringSubmatch re s = Some matches ->
  exists g1 d1 g2 d2 g3 d3 g4 d4 g5,
    s = g1 ++ d1 ++ g2 ++ d2 ++ g3 ++ d3 ++ g4 ++ d4 ++ g5
    /\ matches = [s; g1; g2; g3; g4; g5]
    /\ hexn 8 g1 /\ hexn 4 g2 /\ hexn 4 g3 /\ hexn 4 g4 /\ hexn 12 g5
    /\ dashopt d1 /\ dashopt d2 /\ dashopt d3 /\ dashopt d4.
Proof.
  rewrite FindStringSubmatch_re. unfold uuid_match.
  set (st0 := mkState 0 s (repeat None 6)).
  assert (H0 : at_prefix s [] st0) by (split; reflexivity).
  destruct (step_group 1 8 st0) as [st1|] eqn:E1; [|discriminate].
  destruct (step_group_inv _ _ _ _ _ _ H0 E1) as (g1 & Hg1 & H1 & C1 & T1).
  cbn [bind].
  destruct (step_dash_inv _ _ _ H1) as (d1 & Hd1 & H1' & C1').
  destruct (step_group 2 4 (step_dash st1)) as [st2|] eqn:E2; [|discriminate].
  destruct (step_group_inv _ _ _ _ _ _ H1' E2) as (g2 & Hg2 & H2 & C2 & T2).
  cbn [bind].
  destruct (step_dash_inv _ _ _ H2) as (d2 & Hd2 & H2' & C2').
  destruct (step_group 3 4 (step_dash st2)) as [st3|] eqn:E3; [|discriminate].
  destruct (step_group_inv _ _ _ _ _ _ H2' E3) as (g3 & Hg3 & H3 & C3 & T3).
  cbn [bind].
  destruct (step_dash_inv _ _ _ H3) as (d3 & Hd3 & H3' & C3').
  destruct (step_group 4 4 (step_dash st3)) as [st4|] eqn:E4; [|discriminate].
  destruct (step_group_inv _ _ _ _ _ _ H3' E4) as (g4 & Hg4 & H4 & C4 & T4).
  cbn [bind].
  destruct (step_dash_inv _ _ _ H4) as (d4 & Hd4 & H4' & C4').
  destruct (step_group 5 12 (step_dash st4)) as [st5|] eqn:E5; [|discriminate].
  destruct (step_group_inv _ _ _ _ _ _ H4' E5) as (g5 & Hg5 & H5 & C5 & T5).
  cbn [bind]. unfold step_end.
  destruct (rest st5) as [|x xs] eqn:E; [|discriminate].
  intros [= <-].
  destruct H5 as [Hs Hp]. rewrite E, app_nil_r in Hs.
  exists g1, d1, g2, d2, g3, d3, g4, d4, g5.
  rewrite <- Hs in Hp.
  cbn [app] in Hs. rewrite <- !app_assoc in Hs.
  split; [exact Hs|].
  split; [|repeat (split; [assumption|]); assumption].
  rewrite C5, C4', C4, C3', C3, C2', C2, C1', C1. cbn [st0 caps repeat set_nth map span_text].
  rewrite T1, T2, T3, T4, T5, Hp.
  unfold substr. now rewrite Nat.sub_0_r, firstn_all.
Qed.

Lemma step_group_app (i n p : nat) (g t : gostring)
  (c : list (option (nat * nat))) :
  hexn n g ->
  step_group i n (mkState p (g ++ t) c) =
  Some (mkState (p + n) t (set_nth i (Some (p, p + n)) c)).
Proof.
  intros [Hl Hg]. unfold step_group, classok. cbn [rest pos caps].
  assert (Hle : (n <=? length (g ++ t))%nat = true)
    by (apply Nat.leb_le; rewrite length_app; lia).
  rewrite Hle, <- Hl, firstn_app, firstn_all, Nat.sub_diag.
  cbn [firstn]. rewrite app_nil_r, forallb_in_class, Hg.
  cbn [andb]. now rewrite skipn_app, skipn_all, Nat.sub_diag.
Qed.

Lemma step_dash_app (p n : nat) (d g t : gostring)
  (c : list (option (nat * nat))) :
  dashopt d -> hexn (S n) g ->
  step_dash (mkState p (d ++ g ++ t) c) = mkState (p + length d) (g ++ t) c.
Proof.
  intros [-> | ->] [Hl Hg]; unfold step_dash; cbn [rest app length].
  - destruct g as [|x g]; [discriminate|]. cbn [forallb] in Hg.
    apply andb_prop in Hg as [Hx _]. apply isHex_not_dash in Hx.
    unfold Spec.isDash in Hx. cbn [app]. rewrite Hx.
    now rewrite Nat.add_0_r.
  - cbn [Ascii.eqb Bool.eqb andb advance pos caps].
    now rewrite Nat.add_1_r.
Qed.

Lemma substr_at (s pre g t : gostring) (p q : nat) :
  s = pre ++ g ++ t -> p = length pre -> q = p + length g ->
  substr s p q = g.
Proof. intros -> -> ->. apply substr_app. Qed.

(** Five runs of hex digits, each optionally followed by a dash, are
    matched, and the groups are the runs. *)
Lemma FindStringSubmatch_complete (g1 d1 g2 d2 g3 d3 g4 d4 g5 : gostring) :
  hexn 8 g1 -> hexn 4 g2 -> hexn 4 g3 -> hexn 4 g4 -> hexn 12 g5 ->
  dashopt d1 -> dashopt d2 -> dashopt d3 -> dashopt d4 ->
  let s := g1 ++ d1 ++ g2 ++ d2 ++ g3 ++ d3 ++ g4 ++ d4 ++ g5 in
  FindStringSubmatch re s = Some [s; g1; g2; g3; g4; g5].
Proof.
  intros Hg1 Hg2 Hg3 Hg4 Hg5 Hd1 Hd2 Hd3 Hd4 s.
  rewrite FindStringSubmatch_re. unfold uuid_match.
  assert (Hs : s = g1 ++ d1 ++ g2 ++ d2 ++ g3 ++ d3 ++ g4 ++ d4 ++ g5 ++ [])
    by (subst s; now rewrite app_nil_r).
  rewrite Hs at 1.
  rewrite (step_group_app _ _ _ _ _ _ Hg1). cbn [bind].
  rewrite (step_dash_app _ _ _ _ _ _ Hd1 Hg2),
          (step_group_app _ _ _ _ _ _ Hg2). cbn [bind].
  rewrite (step_dash_app _ _ _ _ _ _ Hd2 Hg3),
          (step_group_app _ _ _ _ _ _ Hg3). cbn [bind].
  rewrite (step_dash_app _ _ _ _ _ _ Hd3 Hg4),
          (step_group_app _ _ _ _ _ _ Hg4). cbn [bind].
  rewrite (step_dash_app _ _ _ _ _ _ Hd4 Hg5),
          (step_group_app _ _ _ _ _ _ Hg5). cbn [bind].
  cbn [step_end rest pos caps repeat set_nth map span_text].
  destruct Hg1 as [L1 _], Hg2 as [L2 _], Hg3 as [L3 _], Hg4 as [L4 _],
           Hg5 as [L5 _].
  assert (Hlen : length s = 0 + 8 + length d1 + 4 + length d2 + 4 + length d3
                            + 4 + length d4 + 12)
    by (subst s; rewrite !length_app; lia).
  rewrite <- Hlen.
  f_equal. f_equal; [unfold substr; now rewrite Nat.sub_0_r, firstn_all|].
  f_equal; [apply (substr_at s [] g1 (d1 ++ g2 ++ d2 ++ g3 ++ d3 ++ g4 ++ d4 ++ g5));
            [reflexivity | reflexivity | lia]|].
  f_equal; [apply (substr_at s (g1 ++ d1) g2 (d2 ++ g3 ++ d3 ++ g4 ++ d4 ++ g5));
            [subst s; now rewrite <- !app_assoc | rewrite !length_app; lia | lia]|].
  f_equal; [apply (substr_at s (g1 ++ d1 ++ g2 ++ d2) g3 (d3 ++ g4 ++ d4 ++ g5));
            [subst s; now rewrite <- !app_assoc | rewrite !length_app; lia | lia]|].
  f_equal; [apply (substr_at s (g1 ++ d1 ++ g2 ++ d2 ++ g3 ++ d3) g4 (d4 ++ g5));
            [subst s; now rewrite <- !app_assoc | rewrite !length_app; lia | lia]|].
  f_equal. apply (substr_at s (g1 ++ d1 ++ g2 ++ d2 ++ g3 ++ d3 ++ g4 ++ d4) g5 []);
    [subst s; now rewrite <- !app_assoc, app_nil_r | rewrite !length_app; lia | lia].
Qed.

End uuid_facts.

(** ** The identifier codec *)

Module codec_facts.

Import regexp Steps hex_facts uuid_facts Mongo.

Lemma Sprintf_uuid (a b c d e : gostring) :
  fmt.Sprintf (text "%s-%s-%s-%s-%s") [a; b; c; d; e] =
  a ++ "-" :: b ++ "-" :: c ++ "-" :: d ++ "-" :: e.
Proof.
  transitivity (a ++ "-" :: b ++ "-" :: c ++ "-" :: d ++ "-" :: e ++ []).
  - reflexivity.
  - now rewrite app_nil_r.
Qed.

Lemma slice_in_range (s : gostring) (lo hi : nat) :
  lo <= hi -> hi <= length s -> slice s lo hi = Some (substr s lo hi).
Proof.
  intros H1 H2. unfold slice.
  apply Nat.leb_le in H1, H2. now rewrite H1, H2.
Qed.

(** Within its two guards [ConvertUuidToString] formats the encoded
    payload; no slice is out of range. *)
Lemma ConvertUuidToString_valid (bin : Binary) :
  Subtype bin = x04 -> length (Data bin) = 16 ->
  ConvertUuidToString bin = Ok (Spec.group (hex.EncodeToString (Data bin))).
Proof.
  intros Hs Hl. unfold ConvertUuidToString. rewrite Hs, Hl.
  cbn [Byte.eqb negb Nat.eqb].
  replace (Byte.eqb x04 x04) with true by reflexivity. cbn [negb].
  assert (H32 : length (hex.EncodeToString (Data bin)) = 32)
    by (rewrite EncodeToString_length; lia).
  rewrite !slice_in_range by lia.
  now rewrite Sprintf_uuid.
Qed.

Lemma forallb_substr {A : Type} (f : A -> bool) (s : list A) (lo hi : nat) :
  forallb f s = true -> forallb f (firstn (hi - lo) (skipn lo s)) = true.
Proof.
  intros H.
  rewrite <- (firstn_skipn lo s), forallb_app in H.
  apply andb_prop in H as [_ H].
  rewrite <- (firstn_skipn (hi - lo) (skipn lo s)), forallb_app in H.
  now apply andb_prop in H as [H _].
Qed.

Lemma hexn_substr (h : gostring) (lo hi : nat) :
  forallb Spec.isHex h = true -> lo <= hi -> hi <= length h ->
  hexn (hi - lo) (substr h lo hi).
Proof.
  intros Hh H1 H2. split.
  - unfold substr. rewrite length_firstn, length_skipn. lia.
  - now apply forallb_substr.
Qed.

(** Cut at the group boundaries, 32 characters are all there. *)
Lemma ungroup (h : gostring) :
  length h = 32 ->
  substr h 0 8 ++ substr h 8 12 ++ substr h 12 16 ++ substr h 16 20
    ++ substr h 20 32 = h.
Proof.
  intros H.
  do 32 (destruct h as [|? h]; [discriminate H|]).
  destruct h; [reflexivity | discriminate H].
Qed.

Lemma forallb_isLowerHex_isHex (h : gostring) :
  forallb Spec.isLowerHex h = true -> forallb Spec.isHex h = true.
Proof.
  induction h as [|x h IH]; [reflexivity|]. cbn [forallb].
  intros H. apply andb_prop in H as [Hx H].
  now rewrite (isLowerHex_isHex _ Hx), IH.
Qed.

Lemma filter_hex (g : gostring) :
  forallb Spec.isHex g = true ->
  filter (fun c => negb (Spec.isDash c)) g = g.
Proof.
  induction g as [|x g IH]; [reflexivity|]. cbn [forallb filter].
  intros H. apply andb_prop in H as [Hx H].
  now rewrite (isHex_not_dash _ Hx), IH.
Qed.

Lemma filter_dashopt (d : gostring) :
  dashopt d -> filter (fun c => negb (Spec.isDash c)) d = [].
Proof. now intros [-> | ->]. Qed.

(** The digits of a string made of five runs of hex digits and
    optional dashes. *)
Lemma filter_uuid (g1 d1 g2 d2 g3 d3 g4 d4 g5 : gostring) :
  hexn 8 g1 -> hexn 4 g2 -> hexn 4 g3 -> hexn 4 g4 -> hexn 12 g5 ->
  dashopt d1 -> dashopt d2 -> dashopt d3 -> dashopt d4 ->
  filter (fun c => negb (Spec.isDash c))
         (g1 ++ d1 ++ g2 ++ d2 ++ g3 ++ d3 ++ g4 ++ d4 ++ g5)
  = g1 ++ g2 ++ g3 ++ g4 ++ g5.
Proof.
  intros [_ H1] [_ H2] [_ H3] [_ H4] [_ H5] D1 D2 D3 D4.
  rewrite !filter_app.
  rewrite (filter_hex _ H1), (filter_hex _ H2), (filter_hex _ H3),
          (filter_hex _ H4), (filter_hex _ H5).
  rewrite (filter_dashopt _ D1), (filter_dashopt _ D2), (filter_dashopt _ D3),
          (filter_dashopt _ D4).
  reflexivity.
Qed.

Lemma clean_hex (g1 g2 g3 g4 g5 : gostring) :
  hexn 8 g1 -> hexn 4 g2 -> hexn 4 g3 -> hexn 4 g4 -> hexn 12 g5 ->
  hexn 32 (strings.Join [g1; g2; g3; g4; g5] []).
Proof.
  intros [L1 H1] [L2 H2] [L3 H3] [L4 H4] [L5 H5].
  change (strings.Join [g1; g2; g3; g4; g5] [])
    with (g1 ++ g2 ++ g3 ++ g4 ++ g5).
  split.
  - rewrite !length_app. lia.
  - rewrite !forallb_app, H1, H2, H3, H4, H5. reflexivity.
Qed.

(** Whatever matches the pattern converts: the payload is the 16
    bytes its 32 digits spell. *)
Lemma ConvertStringToUuid_match (s : gostring) (matches : list gostring) :
  FindStringSubmatch re s = Some matches ->
  exists data,
    ConvertStringToUuid s = Ok (mkBinary x04 data)
    /\ length data = 16
    /\ hex.Decode (strings.Join (tl matches) []) = (data, None)
    /\ hex.EncodeToString data
       = map Spec.toLower (filter (fun c => negb (Spec.isDash c)) s).
Proof.
  intros Hm.
  destruct (FindStringSubmatch_sound _ _ Hm)
    as (g1 & d1 & g2 & d2 & g3 & d3 & g4 & d4 & g5 & Hs & Hms
        & G1 & G2 & G3 & G4 & G5 & D1 & D2 & D3 & D4).
  destruct (clean_hex _ _ _ _ _ G1 G2 G3 G4 G5) as [Hl Hh].
  destruct (Decode_hex _ Hh) as (data & Hdec & Henc & Hlen).
  { now rewrite Hl. }
  exists data. unfold ConvertStringToUuid, hex.DecodeString.
  rewrite Hm, Hms. cbv zeta. cbn [tl]. unfold gostring in *. rewrite Hdec.
  repeat split.
  - lia.
  - rewrite Henc, Hs. now rewrite filter_uuid.
Qed.

(** Whatever matches the pattern is normalised by the two
    conversions. *)
Lemma match_canonical (s : gostring) (matches : list gostring) :
  FindStringSubmatch re s = Some matches ->
  exists bin,
    ConvertStringToUuid s = Ok bin
    /\ ConvertUuidToString bin = Ok (Spec.canonical s).
Proof.
  intros Hm.
  destruct (ConvertStringToUuid_match _ _ Hm) as (data & Hc & Hl & _ & He).
  exists (mkBinary x04 data). split; [exact Hc|].
  rewrite ConvertUuidToString_valid by (reflexivity || exact Hl).
  cbn [Data]. now rewrite He.
Qed.

(** The dashed layout matches the pattern. *)
Lemma dashed_matches (s : gostring) :
  Spec.dashed s = true -> exists matches, FindStringSubmatch re s = Some matches.
Proof.
  unfold Spec.dashed, Spec.isDash. rewrite !andb_true_iff.
  intros [[[[[[[[[L H1] D1] H2] D2] H3] D3] H4] D4] H5].
  apply Nat.eqb_eq in L. apply Ascii.eqb_eq in D1, D2, D3, D4.
  do 36 (destruct s as [|? s]; [discriminate L|]).
  destruct s; [|discriminate L]. cbn [nth] in D1, D2, D3, D4. subst.
  eexists.
  match goal with |- FindStringSubmatch re ?l = _ =>
    exact (FindStringSubmatch_complete
             (substr l 0 8) ["-"] (substr l 9 13) ["-"] (substr l 14 18) ["-"]
             (substr l 19 23) ["-"] (substr l 24 36)
             (conj eq_refl H1) (conj eq_refl H2) (conj eq_refl H3)
             (conj eq_refl H4) (conj eq_refl H5)
             (or_intror eq_refl) (or_intror eq_refl) (or_intror eq_refl)
             (or_intror eq_refl))
  end.
Qed.

(** The undashed layout matches the pattern. *)
Lemma undashed_matches (s : gostring) :
  Spec.undashed s = true -> exists matches, FindStringSubmatch re s = Some matches.
Proof.
  unfold Spec.undashed. rewrite andb_true_iff.
  intros [L H]. apply Nat.eqb_eq in L.
  pose proof (hexn_substr s 0 8 H) as H1.
  pose proof (hexn_substr s 8 12 H) as H2.
  pose proof (hexn_substr s 12 16 H) as H3.
  pose proof (hexn_substr s 16 20 H) as H4.
  pose proof (hexn_substr s 20 32 H) as H5.
  rewrite L in H1, H2, H3, H4, H5.
  specialize (H1 ltac:(lia) ltac:(lia)). specialize (H2 ltac:(lia) ltac:(lia)).
  specialize (H3 ltac:(lia) ltac:(lia)). specialize (H4 ltac:(lia) ltac:(lia)).
  specialize (H5 ltac:(lia) ltac:(lia)).
  clear H. do 32 (destruct s as [|? s]; [discriminate L|]).
  destruct s; [|discriminate L].
  eexists.
  match goal with |- FindStringSubmatch re ?l = _ =>
    exact (FindStringSubmatch_complete
             (substr l 0 8) [] (substr l 8 12) [] (substr l 12 16) []
             (substr l 16 20) [] (substr l 20 32)
             H1 H2 H3 H4 H5
             (or_introl eq_refl) (or_introl eq_refl) (or_introl eq_refl)
             (or_introl eq_refl))
  end.
Qed.

(** [ConvertStringToUuid] returns an identifier or the format error
    that carries its input. *)
Lemma ConvertStringToUuid_cases (s : gostring) :
  (exists matches data,
     FindStringSubmatch re s = Some matches
     /\ ConvertStringToUuid s = Ok (mkBinary x04 data) /\ length data = 16)
  \/ (FindStringSubmatch re s = None
      /\ ConvertStringToUuid s = Err (Errorf_invalid_UUID_format s)).
Proof.
  destruct (FindStringSubmatch re s) as [matches|] eqn:Hm.
  - left. destruct (ConvertStringToUuid_match _ _ Hm) as (data & Hc & Hl & _).
    exists matches, data. auto.
  - right. split; [reflexivity|]. unfold ConvertStringToUuid. now rewrite Hm.
Qed.

Lemma filter_isHex_hex (g : gostring) :
  forallb Spec.isHex g = true -> filter Spec.isHex g = g.
Proof.
  induction g as [|x g IH]; [reflexivity|]. cbn [forallb filter].
  intros H. apply andb_prop in H as [Hx H]. now rewrite Hx, IH.
Qed.

Lemma filter_isHex_dashopt (d : gostring) :
  dashopt d -> filter Spec.isHex d = [].
Proof. now intros [-> | ->]. Qed.

(** The hex digits of a string of the accepted shape are its five
    runs. *)
Lemma filter_isHex_uuid (g1 d1 g2 d2 g3 d3 g4 d4 g5 : gostring) :
  hexn 8 g1 -> hexn 4 g2 -> hexn 4 g3 -> hexn 4 g4 -> hexn 12 g5 ->
  dashopt d1 -> dashopt d2 -> dashopt d3 -> dashopt d4 ->
  filter Spec.isHex (g1 ++ d1 ++ g2 ++ d2 ++ g3 ++ d3 ++ g4 ++ d4 ++ g5)
  = g1 ++ g2 ++ g3 ++ g4 ++ g5.
Proof.
  intros [_ H1] [_ H2] [_ H3] [_ H4] [_ H5] D1 D2 D3 D4.
  rewrite !filter_app.
  rewrite (filter_isHex_hex _ H1), (filter_isHex_hex _ H2),
          (filter_isHex_hex _ H3), (filter_isHex_hex _ H4),
          (filter_isHex_hex _ H5).
  rewrite (filter_isHex_dashopt _ D1), (filter_isHex_dashopt _ D2),
          (filter_isHex_dashopt _ D3), (filter_isHex_dashopt _ D4).
  reflexivity.
Qed.

(** The pattern matches exactly the strings of the accepted shape. *)
Lemma FindStringSubmatch_shape (s : gostring) :
  (exists matches, FindStringSubmatch re s = Some matches) <-> Shape.uuid s.
Proof.
  split.
  - intros [matches Hm].
    destruct (FindStringSubmatch_sound _ _ Hm)
      as (g1 & d1 & g2 & d2 & g3 & d3 & g4 & d4 & g5 & Hs & _ & H).
    exists g1, d1, g2, d2, g3, d3, g4, d4, g5. auto.
  - intros (g1 & d1 & g2 & d2 & g3 & d3 & g4 & d4 & g5 & -> & G1 & G2 & G3
            & G4 & G5 & D1 & D2 & D3 & D4).
    eexists.
    exact (FindStringSubmatch_complete g1 d1 g2 d2 g3 d3 g4 d4 g5
             G1 G2 G3 G4 G5 D1 D2 D3 D4).
Qed.

(** What [ConvertUuidToString] returns with a nil error. *)
Lemma ConvertUuidToString_Ok (bin : Binary) (s : gostring) :
  ConvertUuidToString bin = Ok s ->
  Subtype bin = x04 /\ length (Data bin) = 16
  /\ s = Spec.group (hex.EncodeToString (Data bin)).
Proof.
  intros H. pose proof H as H'. unfold ConvertUuidToString in H'.
  destruct (Byte.eqb (Subtype bin) x04) eqn:Es; [|discriminate].
  apply Byte.byte_dec_bl in Es. cbn [negb] in H'.
  destruct (length (Data bin) =? 16)%nat eqn:El; [|discriminate].
  apply Nat.eqb_eq in El.
  rewrite (ConvertUuidToString_valid bin Es El) in H.
  injection H as <-. auto.
Qed.

(** The digits of a grouped string. *)
Lemma filter_group (h : gostring) :
  length h = 32 -> forallb Spec.isHex h = true ->
  filter (fun c => negb (Spec.isDash c)) (Spec.group h) = h.
Proof.
  intros H32 Hh. unfold Spec.group.
  change (substr h 0 8 ++ "-" :: substr h 8 12 ++ "-" :: substr h 12 16
            ++ "-" :: substr h 16 20 ++ "-" :: substr h 20 32)
    with (substr h 0 8 ++ ["-"] ++ substr h 8 12 ++ ["-"] ++ substr h 12 16
            ++ ["-"] ++ substr h 16 20 ++ ["-"] ++ substr h 20 32).
  rewrite filter_uuid;
    try (apply (hexn_substr h); (assumption || lia));
    try (now right).
  now apply ungroup.
Qed.

(** Two payloads of 16 bytes with the same string are the same. *)
Lemma group_encode_inj (d1 d2 : list byte) :
  length d1 = 16 -> length d2 = 16 ->
  Spec.group (hex.EncodeToString d1) = Spec.group (hex.EncodeToString d2) ->
  d1 = d2.
Proof.
  intros L1 L2 H.
  apply (f_equal (filter (fun c => negb (Spec.isDash c)))) in H.
  rewrite !filter_group in H;
    try (rewrite EncodeToString_length; lia);
    try (apply forallb_isLowerHex_isHex, EncodeToString_isLowerHex).
  apply (f_equal hex.Decode) in H.
  rewrite !Decode_EncodeToString in H. now injection H.
Qed.

Lemma map_id_lower (h : gostring) :
  forallb Spec.isLowerHex h = true -> map Spec.toLower h = h.
Proof.
  induction h as [|x h IH]; [reflexivity|]. cbn [forallb map].
  intros H. apply andb_prop in H as [Hx H].
  rewrite IH by exact H. f_equal. revert Hx. clear.
  destruct x as [b0 b1 b2 b3 b4 b5 b6 b7];
    destruct b0, b1, b2, b3, b4, b5, b6, b7; vm_compute;
    intros H; (reflexivity || discriminate H).
Qed.

(** The string of a 16-byte payload converts back to the payload. *)
Lemma ConvertStringToUuid_group (data : list byte) :
  length data = 16 ->
  ConvertStringToUuid (Spec.group (hex.EncodeToString data))
  = Ok (mkBinary x04 data).
Proof.
  intros Hl. set (h := hex.EncodeToString data).
  assert (H32 : length h = 32)
    by (unfold h; rewrite EncodeToString_length; lia).
  assert (Hh : forallb Spec.isHex h = true)
    by (apply forallb_isLowerHex_isHex, EncodeToString_isLowerHex).
  assert (Hs : Shape.uuid (Spec.group h)).
  { exists (substr h 0 8), ["-"], (substr h 8 12), ["-"], (substr h 12 16),
           ["-"], (substr h 16 20), ["-"], (substr h 20 32).
    split; [reflexivity|].
    repeat split;
      try (apply (hexn_substr h); (assumption || lia)); now right. }
  apply FindStringSubmatch_shape in Hs as [matches Hm].
  destruct (ConvertStringToUuid_match _ _ Hm) as (d & Hc & Hd & _ & He).
  rewrite Hc. do 2 f_equal.
  rewrite (filter_group h H32 Hh) in He.
  rewrite (map_id_lower h) in He.
  - apply (f_equal hex.Decode) in He. unfold h in He.
    rewrite !Decode_EncodeToString in He. now injection He.
  - apply EncodeToString_isLowerHex.
Qed.

(** What [GenerateUuid] returns with a nil error. *)
Lemma GenerateUuid_Ok (src src' : rand.source) (bin : Binary) :
  GenerateUuid src = (Ok bin, src') ->
  16 <= length src
  /\ bin = mkBinary x04 (firstn 16 src) /\ src' = skipn 16 src.
Proof.
  unfold GenerateUuid, rand.Read.
  change (length (repeat x00 16)) with 16.
  destruct (16 <=? length src)%nat eqn:E; [|discriminate].
  apply Nat.leb_le in E.
  remember (firstn 16 src) as a eqn:Ha. remember (skipn 16 src) as b eqn:Hb.
  intros [= <- <-]. auto.
Qed.

End codec_facts.

(** ** The client wrapper *)

Module client_facts.

Import mongo.



Section Store.

Variable matches : bson.value -> bson.value -> bool.
Variable apply : bson.value -> bson.value -> error + bson.value.



End Store.

End client_facts.

(** ** time *)

Module time_facts.

Import time.
Local Open Scope Z_scope.

Lemma leadingInt_from_digits (s : gostring) :
  forall acc, forallb isDigitChar s = true ->
  leadingInt_from acc s = (Spec.decimal_from acc s, []).
Proof.
  induction s as [|c s IH]; intros acc H; [reflexivity|].
  cbn [forallb] in H. apply andb_prop in H as [Hc H].
  cbn [leadingInt_from Spec.decimal_from]. rewrite Hc. now apply IH.
Qed.

Lemma parseUint_number (s : gostring) (lo hi : Z) :
  parseUint s lo hi = Spec.number lo hi s.
Proof.
  unfold parseUint, Spec.number.
  change (forallb Spec.isDigit s) with (forallb isDigitChar s).
  destruct (forallb isDigitChar s) eqn:H; [|reflexivity].
  unfold leadingInt, Spec.decimal. rewrite (leadingInt_from_digits s 0 H).
  cbn [fst].
  destruct (Spec.decimal_from 0 s <? lo) eqn:E1,
           (hi <? Spec.decimal_from 0 s) eqn:E2,
           (lo <=? Spec.decimal_from 0 s) eqn:E3,
           (Spec.decimal_from 0 s <=? hi) eqn:E4; try reflexivity; lia.
Qed.

Lemma daysIn_month_days (y m : Z) :
  1 <= m <= 12 -> daysIn m y = Spec.month_days y m.
Proof.
  intros H. unfold daysIn, Spec.month_days.
  change (isLeap y) with (Spec.leap y).
  assert (Hm : m = 1 \/ m = 2 \/ m = 3 \/ m = 4 \/ m = 5 \/ m = 6 \/ m = 7
               \/ m = 8 \/ m = 9 \/ m = 10 \/ m = 11 \/ m = 12) by lia.
  destruct Hm as [-> | [-> | [-> | [-> | [-> | [-> | [-> | [-> | [-> | [->
                 | [-> | ->]]]]]]]]]]]; reflexivity.
Qed.

Lemma era_days (y : Z) :
  y / 400 * 146097
  + ((y - y / 400 * 400) * 365 + (y - y / 400 * 400) / 4
     - (y - y / 400 * 400) / 100)
  = 365 * y + y / 4 - y / 100 + y / 400.
Proof. Z.div_mod_to_equations. lia. Qed.

Lemma leap_step (y : Z) :
  y / 4 - y / 100 + y / 400
  - ((y - 1) / 4 - (y - 1) / 100 + (y - 1) / 400)
  = if isLeap y then 1 else 0.
Proof.
  unfold isLeap.
  destruct (y mod 4 =? 0) eqn:E4; destruct (y mod 100 =? 0) eqn:E100;
    destruct (y mod 400 =? 0) eqn:E400; cbn [andb orb negb];
    rewrite ?Z.eqb_eq, ?Z.eqb_neq in *;
    Z.div_mod_to_equations; lia.
Qed.

(** The days [Date] counts are the days of the calendar. *)
Lemma Date_days_from_civil (y m d h n s ns : Z) :
  1 <= m <= 12 ->
  Date y m d h n s ns
  = mkTime (Spec.days_from_civil y m d * 86400 + h * 3600 + n * 60 + s) ns 0.
Proof.
  intros H. unfold Date, Spec.days_from_civil. f_equal.
  pose proof (leap_step y) as Hleap.
  assert (Hm : m = 1 \/ m = 2 \/ m = 3 \/ m = 4 \/ m = 5 \/ m = 6 \/ m = 7
               \/ m = 8 \/ m = 9 \/ m = 10 \/ m = 11 \/ m = 12) by lia.
  destruct Hm as [-> | [-> | [-> | [-> | [-> | [-> | [-> | [-> | [-> | [->
                 | [-> | ->]]]]]]]]]]];
    match goal with
    | |- context [nth ?i daysBefore 0] =>
        let v := eval vm_compute in (nth i daysBefore 0) in
        change (nth i daysBefore 0) with v
    end;
    cbn [Z.leb Z.ltb Z.compare Pos.compare Pos.compare_cont Z.sub Z.add
         Z.opp Z.pos_sub Pos.pred_double Z.succ_double Z.pred_double Z.double];
    rewrite ?andb_false_r, ?andb_true_r;
    match goal with
    | |- context [(?a / 5)] =>
        let v := eval vm_compute in (a / 5) in change (a / 5) with v
    end;
    pose proof (era_days (y - 1)) as Hera1;
    pose proof (era_days y) as Hera;
    destruct (isLeap y); lia.
Qed.

Lemma digit_not_punct :
  forall c, isDigitChar c = true ->
  Ascii.eqb c "-" = false /\ Ascii.eqb c "+" = false
  /\ Ascii.eqb c "." = false /\ Ascii.eqb c "," = false
  /\ Ascii.eqb c "Z" = false /\ 0 <= digitVal c <= 9.
Proof.
  intros [b0 b1 b2 b3 b4 b5 b6 b7];
    destruct b0, b1, b2, b3, b4, b5, b6, b7; vm_compute;
    intros H; try discriminate H; repeat split; discriminate.
Qed.

Lemma decimal_from_nonneg (s : gostring) :
  forall acc, forallb isDigitChar s = true -> 0 <= acc ->
  0 <= Spec.decimal_from acc s.
Proof.
  induction s as [|c s IH]; intros acc H Ha; cbn [Spec.decimal_from]; [exact Ha|].
  cbn [forallb] in H. apply andb_prop in H as [Hc H].
  apply IH; [exact H|].
  destruct (digit_not_punct c Hc) as (_ & _ & _ & _ & _ & Hr).
  change (Spec.digit c) with (digitVal c). lia.
Qed.

Lemma atoi_digits (s : gostring) :
  forallb isDigitChar s = true -> atoi s = Some (Spec.decimal s).
Proof.
  intros H. unfold atoi.
  assert (E : match s with
              | c :: s' =>
                  if Ascii.eqb c "-" || Ascii.eqb c "+"
                  then (Ascii.eqb c "-", s') else (false, s)
              | [] => (false, s)
              end = (false, s)).
  { destruct s as [|c s']; [reflexivity|].
    cbn [forallb] in H. apply andb_prop in H as [Hc _].
    destruct (digit_not_punct c Hc) as (-> & -> & _). reflexivity. }
  rewrite E. unfold leadingInt. now rewrite (leadingInt_from_digits s 0 H).
Qed.

Lemma span_digits_spec (s : gostring) :
  forall d r, Spec.span_digits s = (d, r) ->
  s = d ++ r /\ forallb isDigitChar d = true
  /\ forall k, digitsEnd s k = (k + length d)%nat.
Proof.
  induction s as [|c s IH]; intros d r H; cbn [Spec.span_digits] in H.
  - injection H as <- <-. repeat split. intros k. cbn. lia.
  - change (Spec.isDigit c) with (isDigitChar c) in H.
    cbn [digitsEnd]. destruct (isDigitChar c) eqn:Hc.
    + destruct (Spec.span_digits s) as [d' r'] eqn:E.
      injection H as <- <-. destruct (IH _ _ eq_refl) as (-> & Hd & Hk).
      repeat split.
      * cbn [forallb]. now rewrite Hc, Hd.
      * intros k. rewrite Hk. cbn [length]. lia.
    + injection H as <- <-. repeat split. intros k. cbn. lia.
Qed.

Lemma decimal_from_app (a b : gostring) :
  forall acc,
    Spec.decimal_from acc (a ++ b)
    = Spec.decimal_from (Spec.decimal_from acc a) b.
Proof. induction a as [|c a IH]; intros acc; cbn; [reflexivity | apply IH]. Qed.

Lemma decimal_from_zeros (k : nat) :
  forall acc,
    Spec.decimal_from acc (repeat "0"%char k) = acc * 10 ^ Z.of_nat k.
Proof.
  induction k as [|k IH]; intros acc.
  - cbn. lia.
  - cbn [repeat Spec.decimal_from]. rewrite IH.
    change (Spec.digit "0") with 0.
    rewrite Nat2Z.inj_succ, Z.pow_succ_r by lia. lia.
Qed.

Lemma firstn_repeat_le {A : Type} (x : A) (n m : nat) :
  (n <= m)%nat -> firstn n (repeat x m) = repeat x n.
Proof.
  revert m. induction n as [|n IH]; intros m H; [reflexivity|].
  destruct m as [|m]; [lia|]. cbn. f_equal. apply IH. lia.
Qed.

(** The first nine digits of a fraction, in nanoseconds. *)
Lemma nanoseconds_of_digits (d : gostring) :
  Spec.decimal (firstn 9 (d ++ repeat "0"%char 9))
  = Spec.decimal (firstn (Nat.min (length d) 9) d)
    * 10 ^ Z.of_nat (9 - Nat.min (length d) 9).
Proof.
  destruct (Nat.le_gt_cases 9 (length d)) as [H | H].
  - rewrite Nat.min_r by exact H. rewrite Nat.sub_diag.
    rewrite firstn_app. replace (9 - length d)%nat with 0%nat by lia.
    cbn [firstn]. rewrite app_nil_r. cbn. lia.
  - rewrite Nat.min_l by lia. rewrite firstn_all.
    rewrite firstn_app, firstn_all2 by lia.
    replace (firstn (9 - length d) (repeat "0"%char 9))
      with (repeat "0"%char (9 - length d)).
    + unfold Spec.decimal. now rewrite decimal_from_app, decimal_from_zeros.
    + symmetry. apply firstn_repeat_le. lia.
Qed.

(** On a fraction of RFC 3339 the fast path reads the same
    nanoseconds. *)
Lemma fractionalSecond_secfrac (s zone : gostring) (ns : Z) :
  Spec.secfrac s = Some (ns, zone) -> fractionalSecond s = (ns, zone).
Proof.
  unfold Spec.secfrac, fractionalSecond.
  destruct s as [|c s]; [now intros [= <- <-]|].
  destruct (Ascii.eqb c ".") eqn:Ec.
  - destruct (Spec.span_digits s) as [d r] eqn:E.
    destruct (span_digits_spec _ _ _ E) as (-> & Hd & Hk).
    destruct d as [|c1 d]; [discriminate|]. intros [= Hns <-].
    change (Spec.decimal (firstn 9 ((c1 :: d) ++ repeat "0"%char 9)) = ns)
      in Hns.
    rewrite nanoseconds_of_digits in Hns.
    cbn [app andb]. unfold isDigit. cbn [nth_error].
    pose proof Hd as Hd'. cbn [forallb] in Hd'.
    apply andb_prop in Hd' as [Hc1 Hd']. rewrite Hc1.
    cbn [skipn]. 
    set (n := digitsEnd (d ++ r) 2).
    assert (Hn : n = (2 + length d)%nat).
    { unfold n. specialize (Hk 1%nat). cbn [app digitsEnd] in Hk.
      rewrite Hc1 in Hk. rewrite Hk. cbn [length]. lia. }
    assert (H1 : parseNanoseconds (c :: c1 :: d ++ r) n = Nanoseconds ns).
    { unfold parseNanoseconds. unfold commaOrPeriod. rewrite Ec. cbn [orb negb].
      unfold substr. cbn [skipn].
      replace (firstn (Nat.min n 10 - 1) (c1 :: d ++ r))
        with (firstn (Nat.min (length (c1 :: d)) 9) (c1 :: d)).
      * assert (Hd9 : forallb isDigitChar
                        (firstn (Nat.min (length (c1 :: d)) 9) (c1 :: d)) = true).
        { rewrite <- (firstn_skipn (Nat.min (length (c1 :: d)) 9) (c1 :: d)) in Hd.
          rewrite forallb_app in Hd. now apply andb_prop in Hd as [Hd _]. }
        rewrite (atoi_digits _ Hd9).
        pose proof (decimal_from_nonneg _ 0 Hd9 (Z.le_refl 0)) as H0.
        fold (Spec.decimal (firstn (Nat.min (length (c1 :: d)) 9) (c1 :: d))) in H0.
        apply Z.ltb_ge in H0. rewrite H0.
        rewrite <- Hns. do 4 f_equal. cbn [length]. lia.
      * change (c1 :: d ++ r) with ((c1 :: d) ++ r).
        rewrite firstn_app.
        replace (Nat.min n 10 - 1)%nat with (Nat.min (length (c1 :: d)) 9)
          by (cbn [length]; lia).
        replace (Nat.min (length (c1 :: d)) 9 - length (c1 :: d))%nat
          with 0%nat by lia.
        cbn [firstn]. now rewrite app_nil_r. }
    assert (H2 : skipn n (c :: c1 :: d ++ r) = r).
    { rewrite Hn. change (c :: c1 :: d ++ r) with ((c :: c1 :: d) ++ r).
      rewrite skipn_app. replace (2 + length d)%nat with (length (c :: c1 :: d))
        by (cbn [length]; lia).
      now rewrite skipn_all, Nat.sub_diag. }
    now rewrite H1, H2.
  - destruct s as [|c' s]; [now intros [= <- <-]|].
    cbn [andb]. now intros [= <- <-].
Qed.

Lemma timeZone_time_offset (t : Time) (zone : gostring) (off : Z) :
  Spec.time_offset false zone = Some off ->
  exists t',
    timeZone t zone = Some t'
    /\ unixSec t' = unixSec t - off /\ nsec t' = nsec t.
Proof.
  unfold Spec.time_offset, timeZone.
  destruct zone as [|z [|z1 [|z2 [|c3 [|z4 [|z5 [|]]]]]]]; try discriminate.
  - cbn [andb orb]. rewrite orb_false_r.
    destruct (Ascii.eqb z "Z"); [|discriminate].
    intros [= <-]. exists t. repeat split. lia.
  - rewrite !parseUint_number.
    destruct (Spec.number 0 23 [z1; z2]) as [hr|]; [|discriminate].
    destruct (Spec.number 0 59 [z4; z5]) as [mm|]; [|discriminate].
    destruct (Ascii.eqb c3 ":"); [|discriminate]. cbn [negb].
    destruct (Ascii.eqb z "+") eqn:Ep.
    + apply Ascii.eqb_eq in Ep. subst z. intros [= <-].
      cbn [Ascii.eqb Bool.eqb orb andb negb]. eexists. split; [reflexivity|].
      cbn [inZone unixSec nsec]. split; [lia | reflexivity].
    + destruct (Ascii.eqb z "-") eqn:Em; [|discriminate].
      intros [= <-]. cbn [orb andb negb]. eexists. split; [reflexivity|].
      cbn [inZone unixSec nsec]. split; [lia | reflexivity].
Qed.

(** The fast path accepts every [date-time] of RFC 3339 written with
    ["T"] and ["Z"] in upper case and a second below 60, and reads the
    instant it denotes. *)
Lemma parseRFC3339_date_time (s : gostring) (sec ns : Z) :
  Spec.date_time false 59 s = Some (sec, ns) ->
  exists t, parseRFC3339 s = Some t /\ unixSec t = sec /\ nsec t = ns.
Proof.
  unfold Spec.date_time, parseRFC3339.
  destruct s as [|y1 [|y2 [|y3 [|y4 [|c4 [|m1 [|m2 [|c7 [|d1 [|d2 [|c10
    [|h1 [|h2 [|c13 [|n1 [|n2 [|c16 [|s1 [|s2 tail]]]]]]]]]]]]]]]]]]];
    try discriminate.
  rewrite !parseUint_number.
  destruct (Spec.number 0 9999 [y1; y2; y3; y4]) as [y|]; [|discriminate].
  destruct (Spec.number 1 12 [m1; m2]) as [m|] eqn:Em; [|discriminate].
  assert (Hm : 1 <= m <= 12).
  { unfold Spec.number in Em. destruct (forallb _ _); [|discriminate].
    destruct ((1 <=? _) && _) eqn:E; [|discriminate].
    injection Em as <-. lia. }
  rewrite parseUint_number, (daysIn_month_days y m Hm).
  destruct (Spec.number 1 (Spec.month_days y m) [d1; d2]) as [d|];
    [|discriminate].
  destruct (Spec.number 0 23 [h1; h2]) as [h|]; [|discriminate].
  destruct (Spec.number 0 59 [n1; n2]) as [n|]; [|discriminate].
  destruct (Spec.number 0 59 [s1; s2]) as [sc|]; [|discriminate].
  destruct (Spec.secfrac tail) as [[ns' zone]|] eqn:Ef; [|discriminate].
  destruct (Spec.time_offset false zone) as [off|] eqn:Ez; [|discriminate].
  cbn [andb orb]. rewrite orb_false_r.
  destruct (_ && _); [|discriminate]. cbn [negb].
  intros [= <- <-].
  rewrite (fractionalSecond_secfrac _ _ _ Ef).
  destruct (timeZone_time_offset (Date y m d h n sc ns') zone off Ez)
    as (t' & Ht & Hu & Hn).
  exists t'. split; [exact Ht|]. rewrite Hu, Hn.
  rewrite (Date_days_from_civil y m d h n sc ns' Hm). now cbn.
Qed.

(** *** What the parsers accept *)

Lemma number_intro (l : gostring) (lo hi : Z) :
  forallb isDigitChar l = true -> lo <= Spec.decimal l <= hi ->
  Spec.number lo hi l = Some (Spec.decimal l).
Proof.
  intros Hd Hr. unfold Spec.number.
  change (forallb Spec.isDigit l) with (forallb isDigitChar l). rewrite Hd.
  destruct (lo <=? Spec.decimal l) eqn:E1, (Spec.decimal l <=? hi) eqn:E2;
    try reflexivity; lia.
Qed.

Lemma number_weaken (l : gostring) (lo hi lo' hi' v : Z) :
  Spec.number lo hi l = Some v -> lo' <= lo -> hi <= hi' ->
  Spec.number lo' hi' l = Some v.
Proof.
  unfold Spec.number. destruct (forallb Spec.isDigit l); [|discriminate].
  destruct ((lo <=? _) && _) eqn:E; [|discriminate].
  intros [= <-] H1 H2. apply andb_prop in E as [E1 E2].
  destruct (lo' <=? Spec.decimal l) eqn:E3, (Spec.decimal l <=? hi') eqn:E4;
    try reflexivity; lia.
Qed.

Lemma number_range (l : gostring) (lo hi v : Z) :
  Spec.number lo hi l = Some v ->
  forallb isDigitChar l = true /\ v = Spec.decimal l /\ lo <= v <= hi.
Proof.
  unfold Spec.number.
  change (forallb Spec.isDigit l) with (forallb isDigitChar l).
  destruct (forallb isDigitChar l); [|discriminate].
  destruct ((lo <=? _) && _) eqn:E; [|discriminate].
  intros [= <-]. apply andb_prop in E as [E1 E2]. repeat split; lia.
Qed.

Lemma decimal2 (c0 c1 : ascii) :
  Spec.decimal [c0; c1] = digitVal c0 * 10 + digitVal c1.
Proof. reflexivity. Qed.

Lemma getnum_fixed (v v' : gostring) (n : Z) :
  getnum v true = Some (n, v') ->
  exists c0 c1,
    v = c0 :: c1 :: v' /\ forallb isDigitChar [c0; c1] = true
    /\ n = Spec.decimal [c0; c1] /\ 0 <= n <= 99.
Proof.
  unfold getnum, isDigit.
  destruct v as [|c0 [|c1 v'']]; cbn [nth_error negb]; try discriminate.
  - destruct (isDigitChar c0); discriminate.
  - destruct (isDigitChar c0) eqn:H0; [|discriminate].
    destruct (isDigitChar c1) eqn:H1; [|discriminate].
    cbn [negb]. intros [= <- <-]. exists c0, c1.
    cbn [forallb]. rewrite H0, H1, decimal2.
    destruct (digit_not_punct _ H0) as (_ & _ & _ & _ & _ & ?).
    destruct (digit_not_punct _ H1) as (_ & _ & _ & _ & _ & ?).
    repeat split; lia.
Qed.

Lemma getnum_free (v v' : gostring) (n : Z) :
  getnum v false = Some (n, v') ->
  exists hh,
    v = hh ++ v' /\ Layout.short hh /\ forallb isDigitChar hh = true
    /\ n = Spec.decimal hh.
Proof.
  unfold getnum, isDigit.
  destruct v as [|c0 [|c1 v'']]; cbn [nth_error negb]; try discriminate.
  - destruct (isDigitChar c0) eqn:H0; [|discriminate].
    cbn [negb]. intros [= <- <-]. exists [c0]. cbn [forallb]. rewrite H0.
    repeat split. now left.
  - destruct (isDigitChar c0) eqn:H0; [|discriminate]. cbn [negb].
    destruct (isDigitChar c1) eqn:H1; cbn [negb]; intros [= <- <-].
    + exists [c0; c1]. cbn [forallb]. rewrite H0, H1. repeat split. now right.
    + exists [c0]. cbn [forallb]. rewrite H0. repeat split. now left.
Qed.

Lemma skip_inv (prefix : gostring) :
  forall v v', skip v prefix = Some v' -> v = prefix ++ v'.
Proof.
  induction prefix as [|p prefix IH]; intros v v' H; cbn [skip] in H.
  - now injection H as <-.
  - destruct v as [|c v]; [discriminate|].
    destruct (Ascii.eqb c p) eqn:E; [|discriminate].
    apply Ascii.eqb_eq in E. subst. cbn [app]. f_equal. now apply IH.
Qed.

Lemma leadingInt_from_all (s : gostring) :
  forall acc q, leadingInt_from acc s = (q, []) ->
  forallb isDigitChar s = true /\ q = Spec.decimal_from acc s.
Proof.
  induction s as [|c s IH]; intros acc q H; cbn [leadingInt_from] in H.
  - injection H as <-. now split.
  - destruct (isDigitChar c) eqn:Hc; [|discriminate].
    cbn [forallb Spec.decimal_from]. rewrite Hc. now apply IH.
Qed.

(** The digits after a separator: where [digitsEnd] stops. *)
Lemma digitsEnd_split (s : gostring) (k : nat) :
  exists d r,
    s = d ++ r /\ forallb isDigitChar d = true
    /\ digitsEnd s k = (k + length d)%nat.
Proof.
  destruct (Spec.span_digits s) as [d r] eqn:E.
  destruct (span_digits_spec _ _ _ E) as (H1 & H2 & H3).
  exists d, r. auto.
Qed.

Lemma digit_range (c : ascii) :
  isDigitChar c = true -> 0 <= Spec.digit c <= 9.
Proof. intros H. now destruct (digit_not_punct c H) as (_ & _ & _ & _ & _ & ?). Qed.

Lemma parse_year (v v' : gostring) (f f' : fields) :
  parseStd stdLongYear v f = Ok (v', f') ->
  exists y1 y2 y3 y4 y,
    v = [y1; y2; y3; y4] ++ v'
    /\ Spec.number 0 9999 [y1; y2; y3; y4] = Some y
    /\ f' = mkFields y (f_month f) (f_day f) (f_hour f) (f_min f) (f_sec f)
              (f_nsec f) (f_utc f) (f_zoneOffset f).
Proof.
  unfold parseStd.
  destruct v as [|y1 [|y2 [|y3 [|y4 v'']]]]; try discriminate.
  replace (length (y1 :: y2 :: y3 :: y4 :: v'') <? 4)%nat with false
    by (symmetry; apply Nat.ltb_ge; cbn [length]; lia).
  unfold isDigit. cbn [nth_error orb firstn skipn].
  destruct (isDigitChar y1) eqn:H1; [|discriminate]. cbn [negb].
  unfold atoi. destruct (digit_not_punct _ H1) as (-> & -> & _).
  cbn [orb]. unfold leadingInt.
  destruct (leadingInt_from 0 [y1; y2; y3; y4]) as [q rem] eqn:E.
  destruct rem; [|discriminate].
  destruct (leadingInt_from_all _ _ _ E) as [Hd ->].
  intros [= <- <-]. exists y1, y2, y3, y4, (Spec.decimal [y1; y2; y3; y4]).
  repeat split. apply number_intro; [exact Hd|].
  cbn [forallb] in Hd. rewrite !andb_true_iff in Hd.
  destruct Hd as (D1 & D2 & D3 & D4 & _).
  apply digit_range in D1, D2, D3, D4.
  unfold Spec.decimal. cbn [Spec.decimal_from]. lia.
Qed.

Lemma parse_month (v v' : gostring) (f f' : fields) :
  parseStd stdZeroMonth v f = Ok (v', f') ->
  exists m1 m2 m,
    v = [m1; m2] ++ v'
    /\ Spec.number 1 12 [m1; m2] = Some m
    /\ f' = mkFields (f_year f) m (f_day f) (f_hour f) (f_min f) (f_sec f)
              (f_nsec f) (f_utc f) (f_zoneOffset f).
Proof.
  unfold parseStd.
  destruct (getnum v true) as [[m v1]|] eqn:E; [|discriminate].
  destruct (getnum_fixed _ _ _ E) as (m1 & m2 & -> & Hd & -> & _).
  destruct ((_ <=? 0) || _) eqn:Er; [discriminate|].
  apply orb_false_iff in Er as [E1 E2].
  intros [= <- <-]. exists m1, m2, (Spec.decimal [m1; m2]).
  repeat split. apply number_intro; [exact Hd | lia].
Qed.

Lemma parse_day (v v' : gostring) (f f' : fields) :
  parseStd stdZeroDay v f = Ok (v', f') ->
  exists d1 d2,
    v = [d1; d2] ++ v'
    /\ forallb isDigitChar [d1; d2] = true
    /\ f' = mkFields (f_year f) (f_month f) (Spec.decimal [d1; d2])
              (f_hour f) (f_min f) (f_sec f) (f_nsec f) (f_utc f)
              (f_zoneOffset f).
Proof.
  unfold parseStd.
  destruct (getnum v true) as [[d v1]|] eqn:E; [|discriminate].
  destruct (getnum_fixed _ _ _ E) as (d1 & d2 & -> & Hd & -> & _).
  intros [= <- <-]. exists d1, d2. repeat split. exact Hd.
Qed.

Lemma parse_hour (v v' : gostring) (f f' : fields) :
  parseStd stdHour v f = Ok (v', f') ->
  exists hh h,
    v = hh ++ v' /\ Layout.short hh
    /\ Spec.number 0 23 hh = Some h
    /\ f' = mkFields (f_year f) (f_month f) (f_day f) h (f_min f) (f_sec f)
              (f_nsec f) (f_utc f) (f_zoneOffset f).
Proof.
  unfold parseStd.
  destruct (getnum v false) as [[h v1]|] eqn:E; [|discriminate].
  destruct (getnum_free _ _ _ E) as (hh & -> & Hs & Hd & ->).
  destruct ((_ <? 0) || _) eqn:Er; [discriminate|].
  apply orb_false_iff in Er as [E1 E2].
  intros [= <- <-]. exists hh, (Spec.decimal hh).
  repeat split; [exact Hs|]. apply number_intro; [exact Hd | lia].
Qed.

Lemma parse_minute (v v' : gostring) (f f' : fields) :
  parseStd stdZeroMinute v f = Ok (v', f') ->
  exists n1 n2 n,
    v = [n1; n2] ++ v'
    /\ Spec.number 0 59 [n1; n2] = Some n
    /\ f' = mkFields (f_year f) (f_month f) (f_day f) (f_hour f) n (f_sec f)
              (f_nsec f) (f_utc f) (f_zoneOffset f).
Proof.
  unfold parseStd.
  destruct (getnum v true) as [[n v1]|] eqn:E; [|discriminate].
  destruct (getnum_fixed _ _ _ E) as (n1 & n2 & -> & Hd & -> & _).
  destruct ((_ <? 0) || _) eqn:Er; [discriminate|].
  apply orb_false_iff in Er as [E1 E2].
  intros [= <- <-]. exists n1, n2, (Spec.decimal [n1; n2]).
  repeat split. apply number_intro; [exact Hd | lia].
Qed.

(** A separator and the digits [digitsEnd] runs over are a
    fraction. *)
Lemma fraction_split (c x : ascii) (s : gostring) :
  commaOrPeriod c = true -> isDigitChar x = true ->
  exists frac,
    c :: x :: s = frac ++ skipn (digitsEnd s 2) (c :: x :: s)
    /\ Layout.fraction frac.
Proof.
  intros Hc Hx. destruct (digitsEnd_split s 2) as (d & r & -> & Hd & ->).
  exists (c :: x :: d). split.
  - change (c :: x :: d ++ r) with ((c :: x :: d) ++ r).
    replace (2 + length d)%nat with (length (c :: x :: d)) by reflexivity.
    now rewrite skipn_app, skipn_all, Nat.sub_diag.
  - right. exists c, x, d. repeat split.
    + unfold commaOrPeriod in Hc. apply orb_prop in Hc as [Hc | Hc];
        apply Ascii.eqb_eq in Hc; auto.
    + change (forallb isDigitChar (x :: d) = true). cbn [forallb].
      now rewrite Hx, Hd.
Qed.

Lemma parse_second (v v' : gostring) (f f' : fields) :
  parseStd stdZeroSecond v f = Ok (v', f') ->
  exists s1 s2 sc frac ns,
    v = [s1; s2] ++ frac ++ v'
    /\ Spec.number 0 59 [s1; s2] = Some sc
    /\ Layout.fraction frac
    /\ f' = mkFields (f_year f) (f_month f) (f_day f) (f_hour f) (f_min f) sc
              ns (f_utc f) (f_zoneOffset f).
Proof.
  unfold parseStd.
  destruct (getnum v true) as [[sc v1]|] eqn:E; [|discriminate].
  destruct (getnum_fixed _ _ _ E) as (s1 & s2 & -> & Hd & -> & _).
  destruct ((_ <? 0) || _) eqn:Er; [discriminate|].
  apply orb_false_iff in Er as [E1 E2].
  assert (Hn : Spec.number 0 59 [s1; s2] = Some (Spec.decimal [s1; s2]))
    by (apply number_intro; [exact Hd | lia]).
  destruct v1 as [|c [|x s]].
  - intros [= <- <-]. exists s1, s2, (Spec.decimal [s1; s2]), [], (f_nsec f).
    repeat split; [exact Hn | now left].
  - intros [= <- <-]. exists s1, s2, (Spec.decimal [s1; s2]), [], (f_nsec f).
    repeat split; [exact Hn | now left].
  - unfold isDigit. cbn [nth_error].
    destruct (commaOrPeriod c && isDigitChar x) eqn:Ec.
    + apply andb_prop in Ec as [Hc Hx].
      destruct (fraction_split c x s Hc Hx) as (frac & Hs & Hf).
      cbn [skipn].
      destruct (parseNanoseconds _ _) as [ns| |ns]; try discriminate.
      intros [= <- <-]. exists s1, s2, (Spec.decimal [s1; s2]), frac, ns.
      repeat split; [|exact Hn | exact Hf].
      cbn [app]. do 2 f_equal. exact Hs.
    + intros [= <- <-]. exists s1, s2, (Spec.decimal [s1; s2]), [], (f_nsec f).
      repeat split; [exact Hn | now left].
Qed.

Lemma parse_zone (v v' : gostring) (f f' : fields) :
  parseStd stdISO8601ColonTZ v f = Ok (v', f') ->
  exists z,
    v = z ++ v' /\ Layout.zone z
    /\ f_year f' = f_year f /\ f_month f' = f_month f /\ f_day f' = f_day f.
Proof.
  unfold parseStd.
  destruct v as [|c v1]; [discriminate|].
  destruct (Ascii.eqb c "Z") eqn:Ez.
  - apply Ascii.eqb_eq in Ez. subst c. intros [= <- <-].
    exists ["Z"%char]. repeat split. now left.
  - destruct v1 as [|h1 [|h2 [|c3 [|m1 [|m2 v2]]]]]; try discriminate.
    destruct (Ascii.eqb c3 ":") eqn:Ec; [|discriminate]. cbn [negb].
    apply Ascii.eqb_eq in Ec. subst c3.
    destruct (getnum [h1; h2] true) as [[hr r1]|] eqn:Eh; [|discriminate].
    destruct (getnum_fixed _ _ _ Eh) as (? & ? & [= <- <- <-] & Hh & -> & _).
    destruct (getnum [m1; m2] true) as [[mm r2]|] eqn:Em.
    + destruct (getnum_fixed _ _ _ Em) as (? & ? & [= <- <- <-] & Hm & -> & Hm0).
      destruct (60 <? _) eqn:E60; [discriminate|].
      destruct (24 <? _) eqn:E24; [discriminate|].
      assert (Hhr : Spec.number 0 24 [h1; h2] = Some (Spec.decimal [h1; h2])).
      { apply number_intro; [exact Hh|].
        cbn [forallb] in Hh. rewrite !andb_true_iff in Hh.
        destruct Hh as (D1 & D2 & _). apply digit_range in D1, D2.
        rewrite decimal2 in *. change digitVal with Spec.digit in *. lia. }
      assert (Hmm : Spec.number 0 60 [m1; m2] = Some (Spec.decimal [m1; m2]))
        by (apply number_intro; [exact Hm | lia]).
      destruct (Ascii.eqb c "+") eqn:Ep.
      * apply Ascii.eqb_eq in Ep. subst c. intros [= <- <-].
        exists ["+"%char; h1; h2; ":"%char; m1; m2]. repeat split.
        right. do 7 eexists. repeat split; eauto.
      * destruct (Ascii.eqb c "-") eqn:En; [|discriminate].
        apply Ascii.eqb_eq in En. subst c. intros [= <- <-].
        exists ["-"%char; h1; h2; ":"%char; m1; m2]. repeat split.
        right. do 7 eexists. repeat split; eauto.
    + destruct (60 <? 0) eqn:E60; [discriminate|].
      destruct (24 <? _); discriminate.
Qed.

Lemma fractionalSecond_inv (s r : gostring) (ns : Z) :
  fractionalSecond s = (ns, r) ->
  exists frac, s = frac ++ r /\ Layout.fraction frac.
Proof.
  unfold fractionalSecond.
  destruct s as [|c [|x s]];
    try (intros [= <- <-]; exists []; split; [reflexivity | now left]).
  unfold isDigit. cbn [nth_error].
  destruct (Ascii.eqb c "." && isDigitChar x) eqn:Ec.
  - apply andb_prop in Ec as [Hc Hx].
    assert (Hc' : commaOrPeriod c = true) by (unfold commaOrPeriod; now rewrite Hc).
    destruct (fraction_split c x s Hc' Hx) as (frac & Hs & Hf).
    cbn [skipn]. intros [= <- <-]. exists frac. now split.
  - intros [= <- <-]. exists []. split; [reflexivity | now left].
Qed.

Lemma timeZone_inv (t t' : Time) (z : gostring) :
  timeZone t z = Some t' -> Layout.zone z.
Proof.
  unfold timeZone.
  destruct z as [|c [|z1 [|z2 [|c3 [|z4 [|z5 [|]]]]]]]; try discriminate.
  - destruct (Ascii.eqb c "Z") eqn:E; [|discriminate].
    apply Ascii.eqb_eq in E. subst. now left.
  - rewrite !parseUint_number.
    destruct (Spec.number 0 23 [z1; z2]) as [hr|] eqn:Eh; [|discriminate].
    destruct (Spec.number 0 59 [z4; z5]) as [mm|] eqn:Em; [|discriminate].
    destruct ((Ascii.eqb c "-" || Ascii.eqb c "+") && Ascii.eqb c3 ":") eqn:E;
      [|discriminate].
    apply andb_prop in E as [Es Ec]. apply Ascii.eqb_eq in Ec. subst c3.
    intros _. right. exists c, z1, z2, z4, z5, hr, mm. repeat split.
    + apply orb_prop in Es as [Es | Es]; apply Ascii.eqb_eq in Es; auto.
    + apply (number_weaken _ _ _ _ _ _ Eh); lia.
    + apply (number_weaken _ _ _ _ _ _ Em); lia.
Qed.

(** What the fast path accepts. *)
Lemma parseRFC3339_accepted (s : gostring) (t : Time) :
  parseRFC3339 s = Some t -> Layout.accepted s.
Proof.
  unfold parseRFC3339.
  destruct s as [|y1 [|y2 [|y3 [|y4 [|c4 [|m1 [|m2 [|c7 [|d1 [|d2 [|c10
    [|h1 [|h2 [|c13 [|n1 [|n2 [|c16 [|s1 [|s2 tail]]]]]]]]]]]]]]]]]]];
    try discriminate.
  rewrite !parseUint_number.
  destruct (Spec.number 0 9999 [y1; y2; y3; y4]) as [y|] eqn:Ey; [|discriminate].
  destruct (Spec.number 1 12 [m1; m2]) as [m|] eqn:Em; [|discriminate].
  destruct (number_range _ _ _ _ Em) as (_ & _ & Hm).
  rewrite parseUint_number, (daysIn_month_days y m Hm).
  destruct (Spec.number 1 (Spec.month_days y m) [d1; d2]) as [d|] eqn:Ed;
    [|discriminate].
  destruct (Spec.number 0 23 [h1; h2]) as [h|] eqn:Eh; [|discriminate].
  destruct (Spec.number 0 59 [n1; n2]) as [n|] eqn:En; [|discriminate].
  destruct (Spec.number 0 59 [s1; s2]) as [sc|] eqn:Es; [|discriminate].
  destruct (Ascii.eqb c4 "-" && Ascii.eqb c7 "-" && Ascii.eqb c10 "T"
            && Ascii.eqb c13 ":" && Ascii.eqb c16 ":") eqn:E; [|discriminate].
  rewrite !andb_true_iff in E. destruct E as [[[[E4 E7] E10] E13] E16].
  apply Ascii.eqb_eq in E4, E7, E10, E13, E16. subst.
  cbn [negb].
  destruct (fractionalSecond tail) as [ns z] eqn:Ef.
  destruct (fractionalSecond_inv _ _ _ Ef) as (frac & -> & Hf).
  intros Hz. apply timeZone_inv in Hz.
  exact (Layout.Accepted y1 y2 y3 y4 m1 m2 d1 d2 n1 n2 s1 s2 [h1; h2] frac z
           y m d h n sc Ey Em Ed (or_intror eq_refl) Eh En Es Hf Hz).
Qed.

Lemma parseChunks_cons (prefix : gostring) (e : std)
  (layout : list (gostring * std)) (v : gostring) (f : fields)
  (r : gostring * fields) :
  parseChunks ((prefix, e) :: layout) v f = Ok r ->
  exists v1 v2 f1,
    v = prefix ++ v1 /\ parseStd e v1 f = Ok (v2, f1)
    /\ parseChunks layout v2 f1 = Ok r.
Proof.
  cbn [parseChunks].
  destruct (skip v prefix) as [v1|] eqn:Es; [|discriminate].
  apply skip_inv in Es.
  destruct (parseStd e v1 f) as [[v2 f1]| |] eqn:Ep; try discriminate.
  intros H. exists v1, v2, f1. auto.
Qed.

(** What the general path accepts. *)
Lemma parse_accepted (s : gostring) (t : Time) :
  parse RFC3339 s = Ok t -> Layout.accepted s.
Proof.
  unfold parse.
  destruct (parseChunks RFC3339 s fields0) as [[v f]|e|] eqn:E;
    try discriminate.
  destruct v; [|discriminate].
  destruct ((f_day f <? 1) || _) eqn:Eday; [discriminate|]. intros _.
  apply orb_false_iff in Eday as [Ed1 Ed2].
  unfold RFC3339 in E.
  apply parseChunks_cons in E as (v1 & w1 & f1 & -> & P1 & E).
  destruct (parse_year _ _ _ _ P1) as (y1 & y2 & y3 & y4 & y & -> & Hy & F).
  cbn [f_year f_month f_day f_hour f_min f_sec f_nsec f_utc f_zoneOffset
       fields0] in F. subst f1. clear P1.
  apply parseChunks_cons in E as (v2 & w2 & f2 & -> & P2 & E).
  destruct (parse_month _ _ _ _ P2) as (m1 & m2 & m & -> & Hm & F).
  cbn [f_year f_month f_day f_hour f_min f_sec f_nsec f_utc f_zoneOffset]
    in F. subst f2. clear P2.
  apply parseChunks_cons in E as (v3 & w3 & f3 & -> & P3 & E).
  destruct (parse_day _ _ _ _ P3) as (d1 & d2 & -> & Hd & F).
  cbn [f_year f_month f_day f_hour f_min f_sec f_nsec f_utc f_zoneOffset]
    in F. subst f3. clear P3.
  apply parseChunks_cons in E as (v4 & w4 & f4 & -> & P4 & E).
  destruct (parse_hour _ _ _ _ P4) as (hh & h & -> & Hs & Hh & F).
  cbn [f_year f_month f_day f_hour f_min f_sec f_nsec f_utc f_zoneOffset]
    in F. subst f4. clear P4.
  apply parseChunks_cons in E as (v5 & w5 & f5 & -> & P5 & E).
  destruct (parse_minute _ _ _ _ P5) as (n1 & n2 & n & -> & Hn & F).
  cbn [f_year f_month f_day f_hour f_min f_sec f_nsec f_utc f_zoneOffset]
    in F. subst f5. clear P5.
  apply parseChunks_cons in E as (v6 & w6 & f6 & -> & P6 & E).
  destruct (parse_second _ _ _ _ P6)
    as (s1 & s2 & sc & frac & ns & -> & Hsc & Hf & F).
  cbn [f_year f_month f_day f_hour f_min f_sec f_nsec f_utc f_zoneOffset]
    in F. subst f6. clear P6.
  apply parseChunks_cons in E as (v7 & w7 & f7 & -> & P7 & E).
  destruct (parse_zone _ _ _ _ P7) as (z & -> & Hz & Fy & Fm & Fd).
  cbn [f_year f_month f_day] in Fy, Fm, Fd. clear P7.
  cbn [parseChunks] in E. injection E as -> <-.
  rewrite Fy, Fm in Ed2. rewrite Fd in Ed1, Ed2.
  destruct (number_range _ _ _ _ Hm) as (_ & _ & Hmr).
  rewrite (daysIn_month_days y m Hmr) in Ed2.
  assert (Hday : Spec.number 1 (Spec.month_days y m) [d1; d2]
                 = Some (Spec.decimal [d1; d2]))
    by (apply number_intro; [exact Hd | lia]).
  cbn [app]. rewrite app_nil_r.
  exact (Layout.Accepted y1 y2 y3 y4 m1 m2 d1 d2 n1 n2 s1 s2 hh frac z
           y m _ h n sc Hy Hm Hday Hs Hh Hn Hsc Hf Hz).
Qed.

(** [Parse_RFC3339] returns a time or a parse error. *)
Lemma Parse_RFC3339_total (s : gostring) :
  (exists t, Parse_RFC3339 s = Ok t)
  \/ (exists l v m, Parse_RFC3339 s = Err (ParseError l v m)).
Proof.
  unfold Parse_RFC3339. destruct (parseRFC3339 s) as [t|]; [left; eauto|].
  unfold parse.
  assert (Hstd : forall e v f,
            (exists r, parseStd e v f = Ok r)
            \/ (exists l v' m, parseStd e v f = Err (ParseError l v' m))).
  { intros e v f. unfold parseStd, rangeError.
    destruct e;
      repeat match goal with
             | |- context [match ?x with _ => _ end] => destruct x
             | |- context [if ?x then _ else _] => destruct x
             end; eauto. }
  assert (Hch : forall layout v f,
            (exists r, parseChunks layout v f = Ok r)
            \/ (exists l v' m, parseChunks layout v f = Err (ParseError l v' m))).
  { induction layout as [|[prefix e] layout IH]; intros v f; cbn [parseChunks].
    - left. eauto.
    - destruct (skip v prefix) as [v'|]; [|right; eauto].
      destruct (Hstd e v' f) as [[[v'' f'] ->] | (l & w & m & ->)];
        [apply IH | right; eauto]. }
  destruct (Hch RFC3339 s fields0) as [[[v f] ->] | (l & w & m & ->)];
    [|right; eauto].
  destruct v; [|right; eauto].
  destruct (_ || _); [right; eauto|].
  left. destruct (f_utc f); [eauto|]. destruct (negb _); eauto.
Qed.

End time_facts.

(** * The claims *)

Import codec_facts.

(** C1.  For every Identifier [x] with subtype 4 and a 16-byte payload,
    [ConvertStringToUuid (ConvertUuidToString x)] succeeds and returns
    an Identifier equal to [x]: subtype 4 and the same 16 bytes. *)
Theorem uuid_binary_roundtrip (x : Binary) :
  Subtype x = x04 -> length (Data x) = 16 ->
  exists s,
    Mongo.ConvertUuidToString x = Ok s
    /\ Mongo.ConvertStringToUuid s = Ok x.
Proof.
  intros Hs Hl.
  exists (Spec.group (hex.EncodeToString (Data x))).
  split; [now apply ConvertUuidToString_valid|].
  set (h := hex.EncodeToString (Data x)).
  assert (H32 : length h = 32)
    by (unfold h; rewrite hex_facts.EncodeToString_length; lia).
  assert (Hh : forallb Spec.isHex h = true)
    by (apply forallb_isLowerHex_isHex, hex_facts.EncodeToString_isLowerHex).
  pose proof (uuid_facts.FindStringSubmatch_complete
                (substr h 0 8) ["-"] (substr h 8 12) ["-"] (substr h 12 16)
                ["-"] (substr h 16 20) ["-"] (substr h 20 32)) as Hm.
  cbv zeta in Hm.
  unfold Mongo.ConvertStringToUuid, Spec.group.
  change (substr h 0 8 ++ "-" :: substr h 8 12 ++ "-" :: substr h 12 16
            ++ "-" :: substr h 16 20 ++ "-" :: substr h 20 32)
    with (substr h 0 8 ++ ["-"] ++ substr h 8 12 ++ ["-"] ++ substr h 12 16
            ++ ["-"] ++ substr h 16 20 ++ ["-"] ++ substr h 20 32).
  rewrite Hm;
    try (apply (hexn_substr h); (assumption || lia));
    try (now right).
  cbv zeta. cbn [tl].
  change (strings.Join [substr h 0 8; substr h 8 12; substr h 12 16;
                        substr h 16 20; substr h 20 32] [])
    with (substr h 0 8 ++ substr h 8 12 ++ substr h 12 16 ++ substr h 16 20
            ++ substr h 20 32).
  rewrite (ungroup h H32). unfold hex.DecodeString, h.
  rewrite hex_facts.Decode_EncodeToString.
  destruct x as [st d]. cbn [Subtype Data] in *. now subst.
Qed.

Lemma uuid_binary_roundtrip_witness :
  let x := mkBinary x04 [x00; x01; x02; x03; x04; x05; x06; x07;
                         x08; x09; x0a; x0b; x0c; x0d; x0e; xff] in
  Subtype x = x04 /\ length (Data x) = 16
  /\ exists s,
       Mongo.ConvertUuidToString x = Ok s
       /\ Mongo.ConvertStringToUuid s = Ok x.
Proof.
  split; [reflexivity|]. split; [reflexivity|].
  apply uuid_binary_roundtrip; reflexivity.
Defined.

(** C2.  For every string [s] in the dashed or the undashed 8-4-4-4-12
    hex layout, in either case, [ConvertStringToUuid s] succeeds, and
    [ConvertUuidToString] of the result is the canonical lower-case
    dashed form of [s]. *)
Theorem uuid_string_canonical (s : gostring) :
  Spec.dashed s = true \/ Spec.undashed s = true ->
  exists bin,
    Mongo.ConvertStringToUuid s = Ok bin
    /\ Mongo.ConvertUuidToString bin = Ok (Spec.canonical s).
Proof.
  intros [H | H].
  - destruct (dashed_matches s H) as [matches Hm].
    exact (match_canonical s matches Hm).
  - destruct (undashed_matches s H) as [matches Hm].
    exact (match_canonical s matches Hm).
Qed.

Lemma uuid_string_canonical_witness :
  let s := text "0123ABCD-89ab-4cDe-8F01-23456789abCD" in
  (Spec.dashed s = true \/ Spec.undashed s = true)
  /\ Spec.canonical s = text "0123abcd-89ab-4cde-8f01-23456789abcd"
  /\ exists bin,
       Mongo.ConvertStringToUuid s = Ok bin
       /\ Mongo.ConvertUuidToString bin = Ok (Spec.canonical s).
Proof.
  split; [left; reflexivity|]. split; [reflexivity|].
  apply uuid_string_canonical. left. reflexivity.
Defined.

(** C3.  The code accepts a string with a dash at one group boundary
    only: 33 characters, neither the dashed nor the undashed layout.
    The claim has such a string fail with a format error, as the
    comment above the pattern does (36 characters with dashes, or 32
    without). *)
Theorem partial_dashes_accepted :
  let s := text "12345678-123412341234123456789012" in
  length s = 33
  /\ Spec.dashed s = false /\ Spec.undashed s = false
  /\ Mongo.ConvertStringToUuid s =
     Ok (mkBinary x04 [x12; x34; x56; x78; x12; x34; x12; x34;
                       x12; x34; x12; x34; x56; x78; x90; x12]).
Proof. vm_compute. repeat split. Qed.

(** What is rejected: a string is accepted only if it consists of hex
    digits and dashes and has 32 hex digits. *)
Lemma ConvertStringToUuid_accepts (s : gostring) (bin : Binary) :
  Mongo.ConvertStringToUuid s = Ok bin ->
  forallb (fun c => Spec.isHex c || Spec.isDash c) s = true
  /\ length (filter (fun c => negb (Spec.isDash c)) s) = 32.
Proof.
  unfold Mongo.ConvertStringToUuid.
  destruct (regexp.FindStringSubmatch Mongo.re s) as [matches|] eqn:Hm;
    [intros _ | discriminate].
  destruct (uuid_facts.FindStringSubmatch_sound _ _ Hm)
    as (g1 & d1 & g2 & d2 & g3 & d3 & g4 & d4 & g5 & Hs & _
        & G1 & G2 & G3 & G4 & G5 & D1 & D2 & D3 & D4).
  split.
  - assert (Hg : forall n g, Steps.hexn n g ->
              forallb (fun c => Spec.isHex c || Spec.isDash c) g = true).
    { intros n g [_ H]. rewrite forallb_forall in *. intros c Hc.
      now rewrite (H c Hc). }
    assert (Hd : forall d, Steps.dashopt d ->
              forallb (fun c => Spec.isHex c || Spec.isDash c) d = true).
    { now intros d [-> | ->]. }
    rewrite Hs, !forallb_app.
    rewrite (Hg _ _ G1), (Hg _ _ G2), (Hg _ _ G3), (Hg _ _ G4), (Hg _ _ G5).
    now rewrite (Hd _ D1), (Hd _ D2), (Hd _ D3), (Hd _ D4).
  - rewrite Hs, filter_uuid by assumption.
    destruct G1 as [L1 _], G2 as [L2 _], G3 as [L3 _], G4 as [L4 _],
             G5 as [L5 _].
    rewrite !length_app. lia.
Qed.

(** C4, as the code has it.  [ConvertUuidToString] fails with the
    unsupported-subtype error for every input whose subtype is not 4;
    fails with the invalid-length error for every input of subtype 4
    whose payload is not 16 bytes long; and for every input with
    subtype 4 and a 16-byte payload succeeds with the payload in
    lower-case hex, grouped 8-4-4-4-12 with dashes. *)
Theorem ConvertUuidToString_cases (bin : Binary) :
  (Subtype bin <> x04 ->
   Mongo.ConvertUuidToString bin =
   Err (Errorf_unsupported_binary_subtype (Subtype bin)))
  /\ (Subtype bin = x04 -> length (Data bin) <> 16 ->
      Mongo.ConvertUuidToString bin =
      Err (Errorf_invalid_UUID_binary_length (length (Data bin))))
  /\ (Subtype bin = x04 -> length (Data bin) = 16 ->
      let s := Spec.group (Spec.lowerHex (Data bin)) in
      Mongo.ConvertUuidToString bin = Ok s
      /\ Spec.dashed s = true
      /\ forallb (fun c => Spec.isLowerHex c || Spec.isDash c) s = true).
Proof.
  split; [|split].
  - intros Hs. unfold Mongo.ConvertUuidToString.
    destruct (Byte.eqb (Subtype bin) x04) eqn:E; [|reflexivity].
    apply Byte.byte_dec_bl in E. contradiction.
  - intros Hs Hl. unfold Mongo.ConvertUuidToString. rewrite Hs.
    replace (Byte.eqb x04 x04) with true by reflexivity. cbn [negb].
    apply Nat.eqb_neq in Hl. now rewrite Hl.
  - intros Hs Hl s. subst s.
    rewrite <- hex_facts.EncodeToString_lowerHex.
    split; [now apply ConvertUuidToString_valid|].
    pose proof (hex_facts.EncodeToString_isLowerHex (Data bin)) as Hh.
    pose proof (hex_facts.EncodeToString_length (Data bin)) as H32.
    rewrite Hl in H32.
    set (h := hex.EncodeToString (Data bin)) in *.
    do 32 (destruct h as [|? h]; [discriminate H32|]).
    destruct h; [|discriminate H32].
    cbn [forallb] in Hh. rewrite !andb_true_iff in Hh.
    destruct Hh as (? & ? & ? & ? & ? & ? & ? & ? & ? & ? & ? & ? & ? & ?
                    & ? & ? & ? & ? & ? & ? & ? & ? & ? & ? & ? & ? & ? & ?
                    & ? & ? & ? & ? & _).
    unfold Spec.dashed, Spec.group, Spec.isDash.
    cbn [substr firstn skipn Nat.sub app length Nat.eqb nth forallb andb].
    rewrite !Ascii.eqb_refl.
    repeat match goal with
           | H : Spec.isLowerHex ?c = true |- _ =>
               rewrite (hex_facts.isLowerHex_isHex c H), ?H; clear H
           end.
    split; reflexivity.
Qed.

Lemma ConvertUuidToString_cases_witness :
  Mongo.ConvertUuidToString (mkBinary x00 [x01]) =
    Err (Errorf_unsupported_binary_subtype x00)
  /\ Mongo.ConvertUuidToString (mkBinary x04 [x01]) =
    Err (Errorf_invalid_UUID_binary_length 1)
  /\ Mongo.ConvertUuidToString
       (mkBinary x04 [x00; x01; x02; x03; x04; x05; x06; x07;
                      x08; x09; x0a; x0b; x0c; x0d; x0e; xff]) =
     Ok (text "00010203-0405-0607-0809-0a0b0c0d0eff").
Proof.
  split; [|split].
  - apply (ConvertUuidToString_cases (mkBinary x00 [x01])). discriminate.
  - apply (ConvertUuidToString_cases (mkBinary x04 [x01]));
      [reflexivity | discriminate].
  - apply (ConvertUuidToString_cases
             (mkBinary x04 [x00; x01; x02; x03; x04; x05; x06; x07;
                            x08; x09; x0a; x0b; x0c; x0d; x0e; xff]));
      reflexivity.
Defined.

(** C4 as stated fails: an input whose payload is not 16 bytes long
    and whose subtype is not 4 fails with the unsupported-subtype
    error, not with the invalid-length error. *)
Lemma ConvertUuidToString_length_counterexample :
  length (Data (mkBinary x00 [])) <> 16
  /\ Mongo.ConvertUuidToString (mkBinary x00 []) =
     Err (Errorf_unsupported_binary_subtype x00)
  /\ Mongo.ConvertUuidToString (mkBinary x00 []) <>
     Err (Errorf_invalid_UUID_binary_length (length (Data (mkBinary x00 [])))).
Proof. repeat split; discriminate. Qed.

(** C5.  Once the pattern has matched, the dash-stripped string is
    exactly 32 hex digits and the hex decoding succeeds; so
    [ConvertStringToUuid] never returns the decoding error. *)
Theorem decode_cannot_fail (s : gostring) :
  (forall matches,
     regexp.FindStringSubmatch Mongo.re s = Some matches ->
     let cleanUUID := strings.Join (tl matches) [] in
     length cleanUUID = 32
     /\ forallb Spec.isHex cleanUUID = true
     /\ exists uuidBytes,
          hex.DecodeString cleanUUID = (uuidBytes, None)
          /\ length uuidBytes = 16)
  /\ (forall err,
        Mongo.ConvertStringToUuid s <>
        Err (Errorf_error_decoding_UUID_string err)).
Proof.
  split.
  - intros matches Hm cleanUUID. subst cleanUUID.
    destruct (ConvertStringToUuid_match _ _ Hm) as (data & _ & Hl & Hd & _).
    destruct (uuid_facts.FindStringSubmatch_sound _ _ Hm)
      as (g1 & d1 & g2 & d2 & g3 & d3 & g4 & d4 & g5 & _ & ->
          & G1 & G2 & G3 & G4 & G5 & _).
    destruct (clean_hex _ _ _ _ _ G1 G2 G3 G4 G5) as [L H].
    cbn [tl] in *. repeat split; [exact L | exact H |].
    exists data. now split.
  - intros err. unfold Mongo.ConvertStringToUuid.
    destruct (regexp.FindStringSubmatch Mongo.re s) as [matches|] eqn:Hm;
      [|discriminate].
    destruct (ConvertStringToUuid_match _ _ Hm) as (data & _ & _ & Hd & _).
    cbv zeta. unfold hex.DecodeString. rewrite Hd. discriminate.
Qed.

Lemma decode_cannot_fail_witness :
  let s := text "0123ABCD89ab-4cDe8F01-23456789abCD" in
  regexp.FindStringSubmatch Mongo.re s =
    Some [text "0123ABCD89ab-4cDe8F01-23456789abCD"; text "0123ABCD";
          text "89ab"; text "4cDe"; text "8F01"; text "23456789abCD"]
  /\ exists uuidBytes,
       hex.DecodeString (text "0123ABCD89ab4cDe8F0123456789abCD")
       = (uuidBytes, None)
       /\ length uuidBytes = 16.
Proof.
  intros s.
  assert (Hm : regexp.FindStringSubmatch Mongo.re s =
               Some [text "0123ABCD89ab-4cDe8F01-23456789abCD";
                     text "0123ABCD"; text "89ab"; text "4cDe"; text "8F01";
                     text "23456789abCD"]) by reflexivity.
  split; [exact Hm|].
  exact (proj2 (proj2 (proj1 (decode_cannot_fail s) _ Hm))).
Defined.

(** C6.  [UpdateMany] makes one driver call, and the update document
    of that call is the caller's document wrapped as the value of
    ["$set"]; [UpdateOne] makes one driver call with the caller's
    document as it is.  The store is changed by exactly these calls. *)
Theorem UpdateMany_wraps_in_set
  (matches : bson.value -> bson.value -> bool)
  (apply : bson.value -> bson.value -> error + bson.value)
  (c : Mongo.Client) (database collection : gostring)
  (filter : bson.value) (data : bson.D) (w : world) :
  let wrapped := bson.Document [(text "$set", bson.Document data)] in
  let many := Client.UpdateMany matches apply c database collection filter data w in
  let one := Client.UpdateOne matches apply c database collection filter data w in
  calls (snd many)
    = calls w ++ [mongo.CallUpdateMany (Mongo.client c) database collection
                    filter wrapped]
  /\ srv (snd many)
     = snd (mongo.Collection_UpdateMany matches apply database collection
              filter wrapped (srv w))
  /\ fst many
     = fst (mongo.Collection_UpdateMany matches apply database collection
              filter wrapped (srv w))
  /\ calls (snd one)
     = calls w ++ [mongo.CallUpdateOne (Mongo.client c) database collection
                     filter (bson.Document data)]
  /\ srv (snd one)
     = snd (mongo.Collection_UpdateOne matches apply database collection
              filter (bson.Document data) (srv w))
  /\ fst one
     = fst (mongo.Collection_UpdateOne matches apply database collection
              filter (bson.Document data) (srv w)).
Proof.
  cbv zeta. unfold Client.UpdateMany, Client.UpdateOne, driver.
  destruct (mongo.Collection_UpdateMany _ _ _ _ _ _ (srv w)) as [[e|] s1];
  destruct (mongo.Collection_UpdateOne _ _ _ _ _ _ (srv w)) as [[e'|] s2];
  repeat split.
Qed.



(** C8, as the code has it.  [ConvertStringToIsoDate] returns what
    [time.Parse] returns for the layout [RFC3339].  For every
    [date-time] of RFC 3339 written with ["T"] and ["Z"] in upper case
    and a second below 60 it returns the instant the string denotes.
    Every string it accepts has the form of the layout: a time zone,
    the separators in place and calendar values in range; for any other
    string it fails with the parse error. *)
Theorem ConvertStringToIsoDate_layout (s : gostring) :
  (forall sec ns,
     Spec.date_time false 59 s = Some (sec, ns) ->
     exists t,
       Mongo.ConvertStringToIsoDate s = Ok t
       /\ time.unixSec t = sec /\ time.nsec t = ns)
  /\ (forall t, Mongo.ConvertStringToIsoDate s = Ok t -> Layout.accepted s)
  /\ (~ Layout.accepted s ->
      exists l v m, Mongo.ConvertStringToIsoDate s = Err (ParseError l v m)).
Proof.
  assert (Hacc : forall t, Mongo.ConvertStringToIsoDate s = Ok t ->
                           Layout.accepted s).
  { intros t. unfold Mongo.ConvertStringToIsoDate, time.Parse_RFC3339.
    destruct (time.parseRFC3339 s) as [t'|] eqn:Ef.
    - intros _. exact (time_facts.parseRFC3339_accepted s t' Ef).
    - destruct (time.parse time.RFC3339 s) as [t'| |] eqn:Eg; try discriminate.
      intros _. exact (time_facts.parse_accepted s t' Eg). }
  split; [|split].
  - intros sec ns H.
    destruct (time_facts.parseRFC3339_date_time s sec ns H) as (t & Ht & Hu & Hn).
    exists t. unfold Mongo.ConvertStringToIsoDate, time.Parse_RFC3339.
    rewrite Ht. auto.
  - exact Hacc.
  - intros Hn.
    destruct (time_facts.Parse_RFC3339_total s) as [[t Ht] | (l & v & m & He)].
    + exfalso. apply Hn, (Hacc t).
      unfold Mongo.ConvertStringToIsoDate. now rewrite Ht.
    + exists l, v, m. unfold Mongo.ConvertStringToIsoDate. now rewrite He.
Qed.

Lemma ConvertStringToIsoDate_layout_witness :
  (Spec.date_time false 59 (text "2024-05-11T11:11:11Z")
   = Some (1715425871%Z, 0%Z)
   /\ exists t,
        Mongo.ConvertStringToIsoDate (text "2024-05-11T11:11:11Z") = Ok t
        /\ time.unixSec t = 1715425871%Z /\ time.nsec t = 0%Z)
  /\ (Mongo.ConvertStringToIsoDate (text "2024-05-11T1:11:11,5+24:60")
      = Ok (time.mkTime 1715299871 500000000 90000)
      /\ Layout.accepted (text "2024-05-11T1:11:11,5+24:60"))
  /\ (~ Layout.accepted (text "not-a-date")
      /\ exists l v m,
           Mongo.ConvertStringToIsoDate (text "not-a-date")
           = Err (ParseError l v m)).
Proof.
  split; [|split].
  - split; [reflexivity|].
    apply (ConvertStringToIsoDate_layout (text "2024-05-11T11:11:11Z")).
    reflexivity.
  - split; [reflexivity|].
    apply (ConvertStringToIsoDate_layout (text "2024-05-11T1:11:11,5+24:60")
             ) with (t := time.mkTime 1715299871 500000000 90000).
    reflexivity.
  - assert (Hn : ~ Layout.accepted (text "not-a-date")).
    { intros H. inversion H. }
    split; [exact Hn|].
    apply (ConvertStringToIsoDate_layout (text "not-a-date")). exact Hn.
Defined.

(** The deviations the specification names are rejected: a missing
    time zone, wrong separators, an invalid calendar value. *)
Example ConvertStringToIsoDate_rejects :
  Mongo.ConvertStringToIsoDate (text "2024-05-11T11:11:11")
    = Err (ParseError (text "Z07:00") [] [])
  /\ Mongo.ConvertStringToIsoDate (text "2024/05/11T11:11:11Z")
     = Err (ParseError (text "-") (text "/05/11T11:11:11Z") [])
  /\ Mongo.ConvertStringToIsoDate (text "2024-05-11 11:11:11Z")
     = Err (ParseError (text "T") (text " 11:11:11Z") [])
  /\ Mongo.ConvertStringToIsoDate (text "2023-02-29T11:11:11Z")
     = Err (ParseError [] [] (text ": day out of range"))
  /\ Mongo.ConvertStringToIsoDate (text "2024-13-11T11:11:11Z")
     = Err (ParseError (text "01") (text "-11T11:11:11Z")
              (text ": month out of range")).
Proof. repeat split. Qed.

(** C8 as stated fails both ways: a string with a one-digit hour is
    not a [date-time] of RFC 3339 and is parsed, and a [date-time]
    written with ["t"] and ["z"] in lower case is rejected. *)
Lemma ConvertStringToIsoDate_not_strict :
  (Spec.rfc3339 (text "2024-05-11T1:11:11Z") = None
   /\ Mongo.ConvertStringToIsoDate (text "2024-05-11T1:11:11Z")
      = Ok (time.mkTime 1715389871 0 0))
  /\ (Spec.rfc3339 (text "2024-05-11t11:11:11z") = Some (1715425871%Z, 0%Z)
      /\ Mongo.ConvertStringToIsoDate (text "2024-05-11t11:11:11z")
         = Err (ParseError (text "T") (text "t11:11:11z") [])).
Proof. repeat split. Qed.



(** C10.  When [GenerateUuid] succeeds, the payload is the 16 bytes
    read from the random source, as they came, and the subtype is 4.
    No version or variant bits are set: there are draws for which the
    result is not a version-4 UUID of RFC 4122. *)
Theorem GenerateUuid_raw_bytes :
  (forall (src : rand.source) (bin : Binary) (src' : rand.source),
     Mongo.GenerateUuid src = (Ok bin, src') ->
     Subtype bin = x04
     /\ Data bin = firstn 16 src
     /\ length (Data bin) = 16
     /\ src' = skipn 16 src)
  /\ (exists (src : rand.source) (bin : Binary) (src' : rand.source),
        Mongo.GenerateUuid src = (Ok bin, src')
        /\ Spec.rfc4122_v4 (Data bin) = false).
Proof.
  split.
  - intros src bin src'. unfold Mongo.GenerateUuid, rand.Read.
    cbn [repeat length].
    destruct (16 <=? length src)%nat eqn:E; [|discriminate].
    intros [= <- <-]. apply Nat.leb_le in E. cbn [Subtype Data].
    repeat split. change (length (firstn 16 src) = 16).
    rewrite length_firstn. lia.
  - exists (repeat x00 16), (mkBinary x04 (repeat x00 16)), [].
    split; reflexivity.
Qed.

Lemma GenerateUuid_raw_bytes_witness :
  let src := [xff; xfe; xfd; xfc; xfb; xfa; xf9; xf8;
              xf7; xf6; xf5; xf4; xf3; xf2; xf1; xf0; x11] in
  Mongo.GenerateUuid src = (Ok (mkBinary x04 (firstn 16 src)), [x11])
  /\ Data (mkBinary x04 (firstn 16 src)) = firstn 16 src
  /\ Spec.rfc4122_v4 (firstn 16 src) = false.
Proof.
  intros src.
  assert (H : Mongo.GenerateUuid src = (Ok (mkBinary x04 (firstn 16 src)), [x11]))
    by reflexivity.
  split; [exact H|]. split; [|reflexivity].
  exact (proj1 (proj2 (proj1 GenerateUuid_raw_bytes src _ _ H))).
Defined.

(** * Further properties *)

(** ** Identifier codec *)

(** X1.  [ConvertStringToUuid] succeeds on exactly the strings made of
    five runs of 8, 4, 4, 4 and 12 hex digits, each of the first four
    followed by a dash or not, independently of the others. *)
Theorem ConvertStringToUuid_succeeds_iff (s : gostring) :
  (exists bin, Mongo.ConvertStringToUuid s = Ok bin) <-> Shape.uuid s.
Proof.
  rewrite <- FindStringSubmatch_shape. split.
  - intros [bin H].
    destruct (ConvertStringToUuid_cases s)
      as [(matches & _ & Hm & _) | [_ He]]; [eauto|].
    rewrite He in H. discriminate.
  - intros [matches Hm].
    destruct (ConvertStringToUuid_match _ _ Hm) as (data & Hc & _). eauto.
Qed.

Lemma ConvertStringToUuid_succeeds_iff_witness :
  Shape.uuid (text "dee906b2a562-484689a9-6843a8e3d5a2")
  /\ exists bin,
       Mongo.ConvertStringToUuid (text "dee906b2a562-484689a9-6843a8e3d5a2")
       = Ok bin.
Proof.
  assert (H : Shape.uuid (text "dee906b2a562-484689a9-6843a8e3d5a2")).
  { exists (text "dee906b2"), [], (text "a562"), ["-"], (text "4846"), [],
           (text "89a9"), ["-"], (text "6843a8e3d5a2").
    repeat split; (now left) || (now right). }
  split; [exact H|].
  exact (proj2 (ConvertStringToUuid_succeeds_iff _) H).
Defined.

(** X2.  A string with a character that is neither a hex digit nor a
    dash, or whose number of hex digits is not 32, is rejected with the
    format error, which carries the string. *)
Theorem ConvertStringToUuid_rejects (s : gostring) :
  forallb (fun c => Spec.isHex c || Spec.isDash c) s = false
  \/ length (filter Spec.isHex s) <> 32 ->
  Mongo.ConvertStringToUuid s = Err (Errorf_invalid_UUID_format s).
Proof.
  intros H.
  destruct (ConvertStringToUuid_cases s)
    as [(matches & data & Hm & Hc & _) | [_ He]]; [|exact He].
  exfalso.
  destruct (uuid_facts.FindStringSubmatch_sound _ _ Hm)
    as (g1 & d1 & g2 & d2 & g3 & d3 & g4 & d4 & g5 & Hs & _
        & G1 & G2 & G3 & G4 & G5 & D1 & D2 & D3 & D4).
  destruct H as [H | H].
  - assert (Hg : forall n g, Steps.hexn n g ->
              forallb (fun c => Spec.isHex c || Spec.isDash c) g = true).
    { intros n g [_ Hh]. rewrite forallb_forall in *. intros c Hin.
      now rewrite (Hh c Hin). }
    assert (Hd : forall d, Steps.dashopt d ->
              forallb (fun c => Spec.isHex c || Spec.isDash c) d = true).
    { now intros d [-> | ->]. }
    rewrite Hs, !forallb_app in H.
    rewrite (Hg _ _ G1), (Hg _ _ G2), (Hg _ _ G3), (Hg _ _ G4), (Hg _ _ G5)
      in H.
    rewrite (Hd _ D1), (Hd _ D2), (Hd _ D3), (Hd _ D4) in H. discriminate.
  - apply H. rewrite Hs, filter_isHex_uuid by assumption.
    destruct G1 as [L1 _], G2 as [L2 _], G3 as [L3 _], G4 as [L4 _],
             G5 as [L5 _].
    rewrite !length_app. lia.
Qed.

Lemma ConvertStringToUuid_rejects_witness :
  Mongo.ConvertStringToUuid (text "dee906b2-a562-4846-89a9-6843a8e3d5ag")
    = Err (Errorf_invalid_UUID_format
             (text "dee906b2-a562-4846-89a9-6843a8e3d5ag"))
  /\ Mongo.ConvertStringToUuid (text "dee906b2-a562-4846-89a9-6843a8e3d5a")
     = Err (Errorf_invalid_UUID_format
              (text "dee906b2-a562-4846-89a9-6843a8e3d5a")).
Proof.
  split.
  - apply ConvertStringToUuid_rejects. left. reflexivity.
  - apply ConvertStringToUuid_rejects. right. discriminate.
Defined.

(** X3.  Every identifier [ConvertStringToUuid] returns has subtype 4
    and a payload of exactly 16 bytes. *)
Theorem ConvertStringToUuid_sixteen_bytes (s : gostring) (bin : Binary) :
  Mongo.ConvertStringToUuid s = Ok bin ->
  Subtype bin = x04 /\ length (Data bin) = 16.
Proof.
  intros H.
  destruct (ConvertStringToUuid_cases s)
    as [(matches & data & _ & Hc & Hl) | [_ He]].
  - rewrite Hc in H. injection H as <-. auto.
  - rewrite He in H. discriminate.
Qed.

Lemma ConvertStringToUuid_sixteen_bytes_witness :
  exists bin,
    Mongo.ConvertStringToUuid (text "DEE906B2A5624846-89A9-6843A8E3D5A2")
    = Ok bin
    /\ Subtype bin = x04 /\ length (Data bin) = 16.
Proof.
  eexists. split; [vm_compute; reflexivity|].
  apply (ConvertStringToUuid_sixteen_bytes
           (text "DEE906B2A5624846-89A9-6843A8E3D5A2")).
  reflexivity.
Defined.

(** X4.  For every string [ConvertStringToUuid] accepts, partly dashed
    ones included, converting the identifier back gives the canonical
    form of the string: its hex digits in lower case, grouped
    8-4-4-4-12 with dashes. *)
Theorem accepted_string_normalised (s : gostring) (bin : Binary) :
  Mongo.ConvertStringToUuid s = Ok bin ->
  Mongo.ConvertUuidToString bin = Ok (Spec.canonical s).
Proof.
  intros H.
  destruct (ConvertStringToUuid_cases s)
    as [(matches & data & Hm & _) | [_ He]].
  - destruct (match_canonical s matches Hm) as (bin' & Hc & Hs).
    rewrite Hc in H. now injection H as <-.
  - rewrite He in H. discriminate.
Qed.

Lemma accepted_string_normalised_witness :
  exists bin,
    Mongo.ConvertStringToUuid (text "DEE906B2A562-484689a9-6843A8E3D5A2")
    = Ok bin
    /\ Mongo.ConvertUuidToString bin
       = Ok (text "dee906b2-a562-4846-89a9-6843a8e3d5a2").
Proof.
  eexists. split; [vm_compute; reflexivity|].
  apply (accepted_string_normalised
           (text "DEE906B2A562-484689a9-6843A8E3D5A2")).
  reflexivity.
Defined.

(** X5.  [ConvertUuidToString] is injective: two identifiers with the
    same string are the same identifier. *)
Theorem ConvertUuidToString_injective (x y : Binary) (s : gostring) :
  Mongo.ConvertUuidToString x = Ok s ->
  Mongo.ConvertUuidToString y = Ok s ->
  x = y.
Proof.
  intros Hx Hy.
  destruct (ConvertUuidToString_Ok _ _ Hx) as (Sx & Lx & Ex).
  destruct (ConvertUuidToString_Ok _ _ Hy) as (Sy & Ly & Ey).
  destruct x as [sx dx], y as [sy dy]. cbn [Subtype Data] in *. subst sx sy.
  f_equal. apply group_encode_inj; congruence.
Qed.

Lemma ConvertUuidToString_injective_witness :
  let x := mkBinary x04 [x00; x01; x02; x03; x04; x05; x06; x07;
                         x08; x09; x0a; x0b; x0c; x0d; x0e; xff] in
  Mongo.ConvertUuidToString x
  = Ok (text "00010203-0405-0607-0809-0a0b0c0d0eff")
  /\ x = x.
Proof.
  intros x. split; [reflexivity|].
  apply (ConvertUuidToString_injective x x
           (text "00010203-0405-0607-0809-0a0b0c0d0eff")); reflexivity.
Defined.

(** X6.  Two accepted strings denote the same identifier exactly when
    they have the same canonical form: case and dashes make no
    difference, every hex digit does. *)
Theorem same_identifier_iff_same_canonical (s1 s2 : gostring) (b1 b2 : Binary) :
  Mongo.ConvertStringToUuid s1 = Ok b1 ->
  Mongo.ConvertStringToUuid s2 = Ok b2 ->
  (b1 = b2 <-> Spec.canonical s1 = Spec.canonical s2).
Proof.
  intros H1 H2.
  destruct (ConvertStringToUuid_cases s1)
    as [(m1 & d1 & Hm1 & _) | [_ He]]; [|rewrite He in H1; discriminate].
  destruct (ConvertStringToUuid_cases s2)
    as [(m2 & d2 & Hm2 & _) | [_ He]]; [|rewrite He in H2; discriminate].
  destruct (match_canonical s1 m1 Hm1) as (b1' & Hc1 & Hs1).
  destruct (match_canonical s2 m2 Hm2) as (b2' & Hc2 & Hs2).
  rewrite Hc1 in H1. injection H1 as ->.
  rewrite Hc2 in H2. injection H2 as ->.
  split.
  - intros ->. rewrite Hs1 in Hs2. now injection Hs2.
  - intros E. rewrite E in Hs1.
    destruct (ConvertUuidToString_Ok _ _ Hs1) as (S1 & L1 & E1).
    destruct (ConvertUuidToString_Ok _ _ Hs2) as (S2 & L2 & E2).
    destruct b1 as [t1 p1], b2 as [t2 p2]. cbn [Subtype Data] in *.
    subst t1 t2. f_equal. apply group_encode_inj; congruence.
Qed.

Lemma same_identifier_iff_same_canonical_witness :
  exists b,
    Mongo.ConvertStringToUuid (text "DEE906B2A562-484689a9-6843A8E3D5A2")
    = Ok b
    /\ Mongo.ConvertStringToUuid (text "dee906b2-a562-4846-89a9-6843a8e3d5a2")
       = Ok b
    /\ (b = b <->
        Spec.canonical (text "DEE906B2A562-484689a9-6843A8E3D5A2")
        = Spec.canonical (text "dee906b2-a562-4846-89a9-6843a8e3d5a2")).
Proof.
  eexists. split; [vm_compute; reflexivity|]. split; [reflexivity|].
  apply same_identifier_iff_same_canonical; reflexivity.
Defined.

(** X7.  Every identifier [GenerateUuid] returns has a string form, of
    36 characters, and [ConvertStringToUuid] reads the identifier back
    from it. *)
Theorem generated_uuid_round_trips (src src' : rand.source) (bin : Binary) :
  Mongo.GenerateUuid src = (Ok bin, src') ->
  exists s,
    Mongo.ConvertUuidToString bin = Ok s
    /\ length s = 36
    /\ Mongo.ConvertStringToUuid s = Ok bin.
Proof.
  intros H. destruct (GenerateUuid_Ok _ _ _ H) as (E & -> & ->).
  assert (Hl : length (firstn 16 src) = 16) by (rewrite length_firstn; lia).
  exists (Spec.group (hex.EncodeToString (firstn 16 src))).
  split; [now apply ConvertUuidToString_valid|]. split.
  - pose proof (hex_facts.EncodeToString_length (firstn 16 src)) as H32.
    rewrite Hl in H32.
    set (h := hex.EncodeToString (firstn 16 src)) in *.
    do 32 (destruct h as [|? h]; [discriminate H32|]).
    destruct h; [reflexivity | discriminate H32].
  - now apply ConvertStringToUuid_group.
Qed.

Lemma generated_uuid_round_trips_witness :
  let src := [xff; xfe; xfd; xfc; xfb; xfa; xf9; xf8;
              xf7; xf6; xf5; xf4; xf3; xf2; xf1; xf0; x11] in
  Mongo.GenerateUuid src = (Ok (mkBinary x04 (firstn 16 src)), [x11])
  /\ exists s,
       Mongo.ConvertUuidToString (mkBinary x04 (firstn 16 src)) = Ok s
       /\ length s = 36
       /\ Mongo.ConvertStringToUuid s = Ok (mkBinary x04 (firstn 16 src)).
Proof.
  intros src.
  assert (H : Mongo.GenerateUuid src
              = (Ok (mkBinary x04 (firstn 16 src)), [x11])) by reflexivity.
  split; [exact H|].
  exact (generated_uuid_round_trips src [x11] _ H).
Defined.

(** X8.  Two calls of [GenerateUuid] in a row take the first 32 bytes
    of the random source, 16 each and in order: no byte serves
    twice. *)
Theorem GenerateUuid_twice (src src1 src2 : rand.source) (b1 b2 : Binary) :
  Mongo.GenerateUuid src = (Ok b1, src1) ->
  Mongo.GenerateUuid src1 = (Ok b2, src2) ->
  Data b1 ++ Data b2 = firstn 32 src /\ src2 = skipn 32 src.
Proof.
  intros H1 H2.
  destruct (GenerateUuid_Ok _ _ _ H1) as (E1 & -> & ->).
  destruct (GenerateUuid_Ok _ _ _ H2) as (E2 & -> & ->).
  cbn [Data]. split.
  - rewrite <- (firstn_skipn 16 (firstn 32 src)).
    rewrite firstn_firstn. change (Nat.min 16 32) with 16.
    f_equal. now rewrite (skipn_firstn_comm 16 32 src).
  - now rewrite skipn_skipn.
Qed.

Lemma GenerateUuid_twice_witness :
  let src := map (fun n => match Byte.of_nat n with
                           | Some b => b
                           | None => x00
                           end) (seq 0 33) in
  exists b1 b2 src1 src2,
    Mongo.GenerateUuid src = (Ok b1, src1)
    /\ Mongo.GenerateUuid src1 = (Ok b2, src2)
    /\ Data b1 ++ Data b2 = firstn 32 src /\ src2 = [x20].
Proof.
  intros src. do 4 eexists.
  split; [reflexivity|]. split; [reflexivity|].
  split; [|reflexivity].
  eapply (GenerateUuid_twice src); reflexivity.
Defined.

(** ** Update documents *)



(** ** Timestamps *)

Module layout_facts.

Import time.
Import time_facts.

Local Open Scope Z_scope.

Lemma getnum_two (c0 c1 : ascii) (rest : gostring) (fixed : bool) :
  isDigitChar c0 = true -> isDigitChar c1 = true ->
  getnum (c0 :: c1 :: rest) fixed
  = Some (Spec.decimal [c0; c1], rest).
Proof.
  intros H0 H1. unfold getnum, isDigit. cbn [nth_error]. now rewrite H0, H1.
Qed.

Lemma getnum_one (c0 c : ascii) (rest : gostring) :
  isDigitChar c0 = true -> isDigitChar c = false ->
  getnum (c0 :: c :: rest) false = Some (Spec.decimal [c0], c :: rest).
Proof.
  intros H0 H1. unfold getnum, isDigit. cbn [nth_error]. now rewrite H0, H1.
Qed.

Lemma number2 (lo hi v : Z) (c0 c1 : ascii) :
  Spec.number lo hi [c0; c1] = Some v ->
  isDigitChar c0 = true /\ isDigitChar c1 = true
  /\ v = Spec.decimal [c0; c1] /\ lo <= v <= hi.
Proof.
  intros H. destruct (number_range _ _ _ _ H) as (Hd & Hv & Hr).
  cbn [forallb] in Hd. rewrite !andb_true_iff in Hd. tauto.
Qed.

(** The fraction is read to its end when no digit follows it. *)
Lemma digitsEnd_app (d r : gostring) (k : nat) :
  forallb isDigitChar d = true -> isDigit r 0 = false ->
  digitsEnd (d ++ r) k = (k + length d)%nat.
Proof.
  revert k. induction d as [|c d IH]; intros k Hd Hr.
  - cbn [app length]. rewrite Nat.add_0_r.
    destruct r as [|x r]; [reflexivity|].
    unfold isDigit in Hr. cbn in Hr. cbn [digitsEnd]. now rewrite Hr.
  - cbn [forallb] in Hd. apply andb_prop in Hd as [Hc Hd].
    cbn [app digitsEnd length]. rewrite Hc, IH by assumption. lia.
Qed.

Lemma leadingInt_from_bound (s : gostring) :
  forall acc q r,
    leadingInt_from acc s = (q, r) -> 0 <= acc ->
    0 <= q < (acc + 1) * 10 ^ Z.of_nat (length s).
Proof.
  induction s as [|c s IH]; intros acc q r H Ha.
  - injection H as <- _. cbn. lia.
  - cbn [leadingInt_from] in H. cbn [length].
    rewrite Nat2Z.inj_succ, Z.pow_succ_r by lia.
    assert (Hp : 0 < 10 ^ Z.of_nat (length s))
      by (apply Z.pow_pos_nonneg; lia).
    destruct (isDigitChar c) eqn:Hc.
    + destruct (digit_not_punct c Hc) as (_ & _ & _ & _ & _ & Hv).
      apply IH in H; [|lia]. nia.
    + injection H as <- _. nia.
Qed.

Lemma atoi_bound (s : gostring) (v : Z) :
  atoi s = Some v -> Z.abs v < 10 ^ Z.of_nat (length s).
Proof.
  unfold atoi, leadingInt.
  destruct s as [|c s].
  - intros [= <-]. cbn. lia.
  - destruct (Ascii.eqb c "-" || Ascii.eqb c "+").
    + destruct (leadingInt_from 0 s) as [q r] eqn:E.
      destruct r; [|discriminate]. intros [= <-].
      apply leadingInt_from_bound in E; [|lia]. cbn [length].
      rewrite Nat2Z.inj_succ, Z.pow_succ_r by lia.
      destruct (Ascii.eqb c "-"); lia.
    + destruct (leadingInt_from 0 (c :: s)) as [q r] eqn:E.
      destruct r; [|discriminate]. intros [= <-].
      apply leadingInt_from_bound in E; lia.
Qed.

Lemma atoi_nonneg (c : ascii) (s : gostring) (v : Z) :
  isDigitChar c = true -> atoi (c :: s) = Some v -> 0 <= v.
Proof.
  intros Hc. unfold atoi, leadingInt.
  destruct (digit_not_punct c Hc) as (-> & -> & _). cbn [orb].
  destruct (leadingInt_from 0 (c :: s)) as [q r] eqn:E.
  destruct r; [|discriminate]. intros [= <-].
  apply leadingInt_from_bound in E; lia.
Qed.

(** The nanoseconds of a separator and digits. *)
Lemma parseNanoseconds_range (value : gostring) (n : nat) (ns : Z) :
  parseNanoseconds value n = Nanoseconds ns -> 0 <= ns < 10 ^ 9.
Proof.
  unfold parseNanoseconds. destruct value as [|c value]; [discriminate|].
  destruct (negb (commaOrPeriod c)); [discriminate|].
  set (nb := Nat.min n 10).
  destruct (atoi (substr (c :: value) 1 nb)) as [v|] eqn:E; [|discriminate].
  destruct (v <? 0) eqn:Ev; [discriminate|]. intros [= <-].
  apply Z.ltb_ge in Ev. apply atoi_bound in E.
  assert (Hl : (length (substr (c :: value) 1 nb) <= nb - 1)%nat).
  { unfold substr. rewrite length_firstn. lia. }
  assert (Hnb : (nb <= 10)%nat) by (unfold nb; lia).
  destruct (Nat.eq_dec nb 0) as [E0|E0].
  - rewrite E0 in *. destruct (substr (c :: value) 1 0); cbn in Hl, E; lia.
  - assert (Hp : 10 ^ Z.of_nat (length (substr (c :: value) 1 nb))
                 <= 10 ^ Z.of_nat (nb - 1))
      by (apply Z.pow_le_mono_r; lia).
    assert (H9 : 10 ^ Z.of_nat (nb - 1) * 10 ^ Z.of_nat (10 - nb) = 10 ^ 9).
    { rewrite <- Z.pow_add_r by lia. f_equal. lia. }
    assert (Hq : 0 < 10 ^ Z.of_nat (10 - nb))
      by (apply Z.pow_pos_nonneg; lia).
    split; [apply Z.mul_nonneg_nonneg; lia|].
    rewrite <- H9. apply Z.mul_lt_mono_pos_r; lia.
Qed.

Lemma parseNanoseconds_digit (c x : ascii) (rest : gostring) (k : nat) :
  isDigitChar x = true ->
  exists ns,
    parseNanoseconds (c :: x :: rest) (2 + k) = Nanoseconds ns
    \/ parseNanoseconds (c :: x :: rest) (2 + k) = NanosecondsBad.
Proof.
  intros Hx. unfold parseNanoseconds.
  destruct (negb (commaOrPeriod c)); [exists 0; now right|].
  remember (Nat.min (2 + k) 10) as nb eqn:En.
  remember (10 - nb)%nat as scale.
  destruct nb as [|[|nb]]; try lia.
  unfold substr. cbn [skipn Nat.sub firstn].
  destruct (atoi (x :: firstn nb rest)) as [v|] eqn:E;
    [|exists 0; now right].
  apply (atoi_nonneg x _ v Hx) in E. apply Z.ltb_ge in E. rewrite E.
  eexists. now left.
Qed.

Lemma fractionalSecond_range (s r : gostring) (ns : Z) :
  fractionalSecond s = (ns, r) -> 0 <= ns < 10 ^ 9.
Proof.
  unfold fractionalSecond.
  destruct s as [|c [|x rest]]; try (intros [= <- _]; lia).
  unfold isDigit. cbn [nth_error].
  destruct (Ascii.eqb c "." && isDigitChar x) eqn:E;
    [|intros [= <- _]; lia].
  apply andb_prop in E as [_ Hx]. cbn [skipn].
  destruct (digitsEnd_split rest 2) as (d & r' & _ & _ & ->).
  destruct (parseNanoseconds_digit c x rest (length d) Hx) as (q & [H|H]);
    rewrite H; intros [= <- _]; [|lia].
  exact (parseNanoseconds_range _ _ _ H).
Qed.

Lemma timeZone_ranges (t t' : Time) (z : gostring) :
  timeZone t z = Some t' ->
  nsec t' = nsec t
  /\ (zoneOffset t' = zoneOffset t \/ -90000 <= zoneOffset t' <= 90000).
Proof.
  unfold timeZone.
  destruct z as [|sign [|z1 [|z2 [|c3 [|z4 [|z5 [|]]]]]]]; try discriminate.
  - destruct (Ascii.eqb sign "Z"); [|discriminate]. intros [= <-]. auto.
  - rewrite !parseUint_number.
    destruct (Spec.number 0 23 [z1; z2]) as [hr|] eqn:Eh; [|discriminate].
    destruct (Spec.number 0 59 [z4; z5]) as [mm|] eqn:Em; [|discriminate].
    apply number_range in Eh as (_ & _ & Hh).
    apply number_range in Em as (_ & _ & Hm).
    destruct (negb _); [discriminate|]. intros [= <-]. cbn.
    split; [reflexivity|]. right. destruct (Ascii.eqb sign "-"); lia.
Qed.

Lemma parseRFC3339_ranges (s : gostring) (t : Time) :
  parseRFC3339 s = Some t ->
  0 <= nsec t < 10 ^ 9 /\ -90000 <= zoneOffset t <= 90000.
Proof.
  unfold parseRFC3339.
  destruct s as [|y1 [|y2 [|y3 [|y4 [|c4 [|m1 [|m2 [|c7 [|d1 [|d2 [|c10
    [|h1 [|h2 [|c13 [|n1 [|n2 [|c16 [|s1 [|s2 tail]]]]]]]]]]]]]]]]]]];
    try discriminate.
  destruct (parseUint [y1; y2; y3; y4] 0 9999) as [y|]; [|discriminate].
  destruct (parseUint [m1; m2] 1 12) as [m|]; [|discriminate].
  destruct (parseUint [d1; d2] 1 (daysIn m y)) as [d|]; [|discriminate].
  destruct (parseUint [h1; h2] 0 23) as [h|]; [|discriminate].
  destruct (parseUint [n1; n2] 0 59) as [n|]; [|discriminate].
  destruct (parseUint [s1; s2] 0 59) as [sc|]; [|discriminate].
  destruct (negb _); [discriminate|].
  destruct (fractionalSecond tail) as [ns z] eqn:Ef.
  apply fractionalSecond_range in Ef.
  intros Hz. apply timeZone_ranges in Hz as [Hn Ho].
  unfold Date in Hn, Ho. cbn [nsec zoneOffset] in Hn, Ho.
  rewrite Hn. split; [exact Ef | lia].
Qed.

Lemma parseStd_ranges (e : std) (v v' : gostring) (f f' : fields) :
  parseStd e v f = Ok (v', f') ->
  0 <= f_nsec f < 10 ^ 9 /\ -90000 <= f_zoneOffset f <= 90000 ->
  0 <= f_nsec f' < 10 ^ 9 /\ -90000 <= f_zoneOffset f' <= 90000.
Proof.
  intros H I. destruct e.
  - destruct (parse_year _ _ _ _ H) as (? & ? & ? & ? & ? & _ & _ & ->).
    exact I.
  - destruct (parse_month _ _ _ _ H) as (? & ? & ? & _ & _ & ->). exact I.
  - destruct (parse_day _ _ _ _ H) as (? & ? & _ & _ & ->). exact I.
  - destruct (parse_hour _ _ _ _ H) as (? & ? & _ & _ & _ & ->). exact I.
  - destruct (parse_minute _ _ _ _ H) as (? & ? & ? & _ & _ & ->). exact I.
  - revert H. unfold parseStd.
    destruct (getnum v true) as [[sc v1]|]; [|discriminate].
    destruct ((_ <? 0) || _); [discriminate|].
    destruct v1 as [|c [|x s]]; try (intros [= _ <-]; exact I).
    destruct (commaOrPeriod c && isDigit (c :: x :: s) 1);
      [|intros [= _ <-]; exact I].
    destruct (parseNanoseconds _ _) as [ns| |ns] eqn:En; try discriminate.
    intros [= _ <-]. cbn [f_nsec f_zoneOffset].
    split; [exact (parseNanoseconds_range _ _ _ En) | apply I].
  - revert H. unfold parseStd.
    destruct v as [|c v1]; [discriminate|].
    destruct (Ascii.eqb c "Z"); [intros [= _ <-]; exact I|].
    destruct v1 as [|h1 [|h2 [|c3 [|m1 [|m2 v2]]]]]; try discriminate.
    destruct (negb _); [discriminate|].
    destruct (getnum [h1; h2] true) as [[hr r1]|] eqn:Eh; [|discriminate].
    destruct (getnum_fixed _ _ _ Eh) as (? & ? & _ & _ & _ & Hh).
    destruct (getnum [m1; m2] true) as [[mm r2]|] eqn:Em.
    + destruct (getnum_fixed _ _ _ Em) as (? & ? & _ & _ & _ & Hm).
      destruct (60 <? mm) eqn:E60; [discriminate|].
      destruct (24 <? hr) eqn:E24; [discriminate|].
      apply Z.ltb_ge in E60, E24.
      destruct (Ascii.eqb c "+"); [intros [= _ <-]; cbn; lia|].
      destruct (Ascii.eqb c "-"); [intros [= _ <-]; cbn; lia|discriminate].
    + destruct (60 <? 0); [discriminate|]. destruct (24 <? hr); discriminate.
Qed.

Lemma parseChunks_ranges (layout : list (gostring * std)) :
  forall v f v' f',
    parseChunks layout v f = Ok (v', f') ->
    0 <= f_nsec f < 10 ^ 9 /\ -90000 <= f_zoneOffset f <= 90000 ->
    0 <= f_nsec f' < 10 ^ 9 /\ -90000 <= f_zoneOffset f' <= 90000.
Proof.
  induction layout as [|[prefix e] layout IH]; intros v f v' f' H I.
  - now injection H as _ <-.
  - apply parseChunks_cons in H as (v1 & v2 & f1 & _ & P & H).
    exact (IH _ _ _ _ H (parseStd_ranges _ _ _ _ _ P I)).
Qed.

Lemma parse_ranges (layout : list (gostring * std)) (s : gostring) (t : Time) :
  parse layout s = Ok t ->
  0 <= nsec t < 10 ^ 9 /\ -90000 <= zoneOffset t <= 90000.
Proof.
  unfold parse.
  destruct (parseChunks layout s fields0) as [[v f]| |] eqn:E;
    try discriminate.
  assert (I : 0 <= f_nsec f < 10 ^ 9 /\ -90000 <= f_zoneOffset f <= 90000)
    by (apply (parseChunks_ranges _ _ _ _ _ E); cbn; lia).
  destruct v; [|discriminate].
  destruct (_ || _); [discriminate|].
  destruct (f_utc f); [intros [= <-]; cbn; lia|].
  destruct (negb _); intros [= <-]; cbn; lia.
Qed.

(** *** What the general path does on the strings of the layout *)

Lemma forallb_firstn {A : Type} (p : A -> bool) (l : list A) (n : nat) :
  forallb p l = true -> forallb p (firstn n l) = true.
Proof.
  intros H. rewrite <- (firstn_skipn n l), forallb_app in H.
  now apply andb_prop in H as [H _].
Qed.

Lemma parseNanoseconds_digits (c : ascii) (ds r : gostring) :
  commaOrPeriod c = true -> forallb isDigitChar ds = true ->
  exists ns,
    parseNanoseconds (c :: ds ++ r) (1 + length ds) = Nanoseconds ns.
Proof.
  intros Hc Hd. unfold parseNanoseconds. rewrite Hc. cbn [negb].
  remember (Nat.min (1 + length ds) 10) as nb eqn:En.
  remember (10 - nb)%nat as scale.
  unfold substr. cbn [skipn].
  rewrite firstn_app.
  replace (nb - 1 - length ds)%nat with 0%nat by lia.
  cbn [firstn]. rewrite app_nil_r.
  pose proof (forallb_firstn isDigitChar ds (nb - 1) Hd) as Hf.
  rewrite (atoi_digits _ Hf).
  pose proof (decimal_from_nonneg _ 0 Hf (Z.le_refl 0)) as H0.
  fold (Spec.decimal (firstn (nb - 1) ds)) in H0.
  apply Z.ltb_ge in H0. rewrite H0. eauto.
Qed.

Lemma zone_head (z : gostring) :
  Layout.zone z ->
  exists c z', z = c :: z' /\ isDigitChar c = false
               /\ commaOrPeriod c = false.
Proof.
  intros [-> | (sign & z1 & z2 & z4 & z5 & hr & mm & -> & [-> | ->] & _)];
    eexists; eexists; repeat split; reflexivity.
Qed.

Lemma fwd_year (y1 y2 y3 y4 : ascii) (rest : gostring) (f : fields) :
  forallb isDigitChar [y1; y2; y3; y4] = true ->
  parseStd stdLongYear (y1 :: y2 :: y3 :: y4 :: rest) f
  = Ok (rest,
        mkFields (Spec.decimal [y1; y2; y3; y4]) (f_month f) (f_day f)
          (f_hour f) (f_min f) (f_sec f) (f_nsec f) (f_utc f)
          (f_zoneOffset f)).
Proof.
  intros Hd. unfold parseStd, isDigit.
  cbn [length Nat.ltb Nat.leb nth_error firstn skipn orb].
  rewrite (atoi_digits _ Hd).
  cbn [forallb] in Hd. apply andb_prop in Hd as [-> _]. reflexivity.
Qed.

Lemma fwd_month (m1 m2 : ascii) (m : Z) (rest : gostring) (f : fields) :
  Spec.number 1 12 [m1; m2] = Some m ->
  parseStd stdZeroMonth (m1 :: m2 :: rest) f
  = Ok (rest,
        mkFields (f_year f) m (f_day f) (f_hour f) (f_min f) (f_sec f)
          (f_nsec f) (f_utc f) (f_zoneOffset f)).
Proof.
  intros H. destruct (number2 _ _ _ _ _ H) as (H1 & H2 & -> & Hr).
  unfold parseStd. rewrite (getnum_two _ _ _ _ H1 H2).
  destruct (_ <=? 0) eqn:E1; [apply Z.leb_le in E1; lia|].
  destruct (12 <? _) eqn:E2; [apply Z.ltb_lt in E2; lia|]. reflexivity.
Qed.

Lemma fwd_day (d1 d2 : ascii) (rest : gostring) (f : fields) :
  isDigitChar d1 = true -> isDigitChar d2 = true ->
  parseStd stdZeroDay (d1 :: d2 :: rest) f
  = Ok (rest,
        mkFields (f_year f) (f_month f) (Spec.decimal [d1; d2]) (f_hour f)
          (f_min f) (f_sec f) (f_nsec f) (f_utc f) (f_zoneOffset f)).
Proof.
  intros H1 H2. unfold parseStd. now rewrite (getnum_two _ _ _ _ H1 H2).
Qed.

Lemma fwd_hour (hh : gostring) (h : Z) (rest : gostring) (f : fields) :
  Layout.short hh -> Spec.number 0 23 hh = Some h ->
  parseStd stdHour (hh ++ ":"%char :: rest) f
  = Ok (":"%char :: rest,
        mkFields (f_year f) (f_month f) (f_day f) h (f_min f) (f_sec f)
          (f_nsec f) (f_utc f) (f_zoneOffset f)).
Proof.
  intros Hs H. destruct (number_range _ _ _ _ H) as (Hd & -> & Hr).
  unfold parseStd.
  destruct hh as [|h1 [|h2 [|]]]; try (destruct Hs; discriminate).
  - cbn [forallb] in Hd. apply andb_prop in Hd as [H1 _].
    cbn [app]. rewrite (getnum_one h1 ":" rest H1 eq_refl).
    destruct (_ <? 0) eqn:E1; [apply Z.ltb_lt in E1; lia|].
    destruct (24 <=? _) eqn:E2; [apply Z.leb_le in E2; lia|]. reflexivity.
  - cbn [forallb] in Hd. rewrite !andb_true_iff in Hd.
    destruct Hd as (H1 & H2 & _).
    cbn [app]. rewrite (getnum_two _ _ _ _ H1 H2).
    destruct (_ <? 0) eqn:E1; [apply Z.ltb_lt in E1; lia|].
    destruct (24 <=? _) eqn:E2; [apply Z.leb_le in E2; lia|]. reflexivity.
Qed.

Lemma fwd_minute (n1 n2 : ascii) (n : Z) (rest : gostring) (f : fields) :
  Spec.number 0 59 [n1; n2] = Some n ->
  parseStd stdZeroMinute (n1 :: n2 :: rest) f
  = Ok (rest,
        mkFields (f_year f) (f_month f) (f_day f) (f_hour f) n (f_sec f)
          (f_nsec f) (f_utc f) (f_zoneOffset f)).
Proof.
  intros H. destruct (number2 _ _ _ _ _ H) as (H1 & H2 & -> & Hr).
  unfold parseStd. rewrite (getnum_two _ _ _ _ H1 H2).
  destruct (_ <? 0) eqn:E1; [apply Z.ltb_lt in E1; lia|].
  destruct (60 <=? _) eqn:E2; [apply Z.leb_le in E2; lia|]. reflexivity.
Qed.

Lemma fwd_second (s1 s2 : ascii) (sc : Z) (frac z : gostring) (f : fields) :
  Spec.number 0 59 [s1; s2] = Some sc ->
  Layout.fraction frac -> Layout.zone z ->
  exists ns,
    parseStd stdZeroSecond (s1 :: s2 :: frac ++ z) f
    = Ok (z,
          mkFields (f_year f) (f_month f) (f_day f) (f_hour f) (f_min f) sc
            ns (f_utc f) (f_zoneOffset f)).
Proof.
  intros H Hf Hz. destruct (number2 _ _ _ _ _ H) as (H1 & H2 & -> & Hr).
  destruct (zone_head z Hz) as (zc & z' & -> & Hzd & Hzc).
  unfold parseStd. rewrite (getnum_two _ _ _ _ H1 H2).
  destruct (_ <? 0) eqn:E1; [apply Z.ltb_lt in E1; lia|].
  destruct (60 <=? _) eqn:E2; [apply Z.leb_le in E2; lia|]. cbn [orb].
  destruct Hf as [-> | (c & d & ds & -> & Hc & Hd)].
  - cbn [app]. rewrite Hzc. cbn [andb].
    destruct z'; eauto.
  - assert (Hc' : commaOrPeriod c = true) by (destruct Hc; now subst).
    cbn [app]. unfold isDigit. cbn [nth_error skipn].
    pose proof Hd as Hd'. cbn [forallb] in Hd'.
    apply andb_prop in Hd' as [Hd1 Hds].
    change (isDigitChar d = true) in Hd1.
    change (forallb isDigitChar ds = true) in Hds.
    rewrite Hc', Hd1. cbn [andb].
    rewrite (digitsEnd_app ds (zc :: z') 2 Hds)
      by (unfold isDigit; cbn; exact Hzd).
    destruct (parseNanoseconds_digits c (d :: ds) (zc :: z') Hc' Hd)
      as (ns & Hns).
    cbn [app length Nat.add] in Hns. cbn [Nat.add]. rewrite Hns.
    cbn [skipn].
    replace (skipn (length ds) (ds ++ zc :: z')) with (zc :: z')
      by (now rewrite skipn_app, Nat.sub_diag, skipn_all).
    eauto.
Qed.

Lemma fwd_zone (z : gostring) (f : fields) :
  Layout.zone z ->
  exists f',
    parseStd stdISO8601ColonTZ z f = Ok ([], f')
    /\ f_year f' = f_year f /\ f_month f' = f_month f /\ f_day f' = f_day f.
Proof.
  intros [-> | (sign & z1 & z2 & z4 & z5 & hr & mm & -> & Hs & Hh & Hm)].
  - eexists. split; [reflexivity|]. auto.
  - destruct (number2 _ _ _ _ _ Hh) as (A1 & A2 & -> & Ah).
    destruct (number2 _ _ _ _ _ Hm) as (B1 & B2 & -> & Bm).
    unfold parseStd.
    replace (Ascii.eqb sign "Z") with false by (destruct Hs; now subst).
    cbn [Ascii.eqb Bool.eqb negb].
    rewrite (getnum_two _ _ _ _ A1 A2), (getnum_two _ _ _ _ B1 B2).
    destruct (60 <? _) eqn:E1; [apply Z.ltb_lt in E1; lia|].
    destruct (24 <? _) eqn:E2; [apply Z.ltb_lt in E2; lia|].
    destruct Hs as [-> | ->]; eexists; (split; [reflexivity|]); auto.
Qed.

(** Every string of the layout is parsed. *)
Lemma parse_of_accepted (s : gostring) :
  Layout.accepted s -> exists t, parse RFC3339 s = Ok t.
Proof.
  intros [y1 y2 y3 y4 m1 m2 d1 d2 n1 n2 s1 s2 hh frac z y m d h n sc
            Hy Hm Hd Hs Hh Hn Hsc Hf Hz].
  destruct (number_range _ _ _ _ Hy) as (Yd & -> & _).
  destruct (number2 _ _ _ _ _ Hd) as (D1 & D2 & -> & Dr).
  destruct (number_range _ _ _ _ Hm) as (_ & _ & Mr).
  unfold parse, RFC3339. cbn [app parseChunks skip].
  rewrite (fwd_year _ _ _ _ _ _ Yd). rewrite Ascii.eqb_refl.
  cbn [f_year f_month f_day f_hour f_min f_sec f_nsec f_utc f_zoneOffset
       fields0].
  rewrite (fwd_month _ _ _ _ _ Hm). rewrite Ascii.eqb_refl.
  cbn [f_year f_month f_day f_hour f_min f_sec f_nsec f_utc f_zoneOffset
       fields0].
  rewrite (fwd_day _ _ _ _ D1 D2). rewrite Ascii.eqb_refl.
  cbn [f_year f_month f_day f_hour f_min f_sec f_nsec f_utc f_zoneOffset
       fields0].
  rewrite (fwd_hour _ _ _ _ Hs Hh). rewrite Ascii.eqb_refl.
  cbn [f_year f_month f_day f_hour f_min f_sec f_nsec f_utc f_zoneOffset
       fields0].
  rewrite (fwd_minute _ _ _ _ _ Hn). rewrite Ascii.eqb_refl.
  cbn [f_year f_month f_day f_hour f_min f_sec f_nsec f_utc f_zoneOffset
       fields0].
  destruct (fwd_second s1 s2 sc frac z
              (mkFields (Spec.decimal [y1; y2; y3; y4]) m
                 (Spec.decimal [d1; d2]) h n 0 0 false (-1)) Hsc Hf Hz)
    as (ns & ->).
  cbn [f_year f_month f_day f_hour f_min f_sec f_nsec f_utc f_zoneOffset].
  destruct (fwd_zone z
              (mkFields (Spec.decimal [y1; y2; y3; y4]) m
                 (Spec.decimal [d1; d2]) h n sc ns false (-1)) Hz)
    as (f' & -> & Fy & Fm & Fd).
  cbn [f_year f_month f_day] in Fy, Fm, Fd. rewrite Fy, Fm, Fd.
  rewrite (daysIn_month_days _ _ Mr).
  destruct (_ <? 1) eqn:E1; [apply Z.ltb_lt in E1; lia|].
  destruct (_ <? Spec.decimal [d1; d2]) eqn:E2; [apply Z.ltb_lt in E2; lia|].
  cbn [orb]. destruct (f_utc f'); [eauto|]. destruct (negb _); eauto.
Qed.

End layout_facts.

(** X14. [ConvertStringToIsoDate] returns a time exactly for the
    strings of the layout: four digits of year, a month from 01 to 12,
    a day of that month, ["T"], an hour up to 23 in one or two digits,
    a minute and a second up to 59, an optional fraction after a
    period or a comma, and ["Z"] or a signed offset up to 24:60. *)
Theorem ConvertStringToIsoDate_succeeds_iff (s : gostring) :
  (exists t, Mongo.ConvertStringToIsoDate s = Ok t) <-> Layout.accepted s.
Proof.
  unfold Mongo.ConvertStringToIsoDate, time.Parse_RFC3339. split.
  - intros [t H].
    destruct (time.parseRFC3339 s) as [t'|] eqn:Ef.
    + exact (time_facts.parseRFC3339_accepted s t' Ef).
    + destruct (time.parse time.RFC3339 s) as [t'| |] eqn:Eg;
        try discriminate.
      exact (time_facts.parse_accepted s t' Eg).
  - intros H. destruct (time.parseRFC3339 s) as [t'|]; [eauto|].
    destruct (layout_facts.parse_of_accepted s H) as [t ->]. eauto.
Qed.

(** X15. Every time [ConvertStringToIsoDate] returns has its
    nanoseconds from 0 to 999999999 and a zone offset of at most 25
    hours (90000 seconds) east or west. *)
Theorem ConvertStringToIsoDate_ranges (s : gostring) (t : time.Time) :
  Mongo.ConvertStringToIsoDate s = Ok t ->
  (0 <= time.nsec t < 10 ^ 9)%Z
  /\ (-90000 <= time.zoneOffset t <= 90000)%Z.
Proof.
  unfold Mongo.ConvertStringToIsoDate, time.Parse_RFC3339.
  destruct (time.parseRFC3339 s) as [t'|] eqn:Ef.
  - intros [= <-]. exact (layout_facts.parseRFC3339_ranges s t' Ef).
  - destruct (time.parse time.RFC3339 s) as [t'| |] eqn:Eg; try discriminate.
    intros [= <-]. exact (layout_facts.parse_ranges _ s t' Eg).
Qed.

Lemma ConvertStringToIsoDate_ranges_witness :
  Mongo.ConvertStringToIsoDate (text "2024-05-11T1:11:11,123456789012-24:60")
  = Ok (time.mkTime 1715479871 123456789 (-90000))
  /\ (0 <= 123456789 < 10 ^ 9)%Z /\ (-90000 <= -90000 <= 90000)%Z.
Proof.
  split; [vm_compute; reflexivity|].
  exact (ConvertStringToIsoDate_ranges
           (text "2024-05-11T1:11:11,123456789012-24:60")
           (time.mkTime 1715479871 123456789 (-90000)) eq_refl).
Defined.
